(** * Bedrock resource location resolver: a shallow embedding

    The development follows [src/Locations.ts] (platform dispatch, existence
    filter, mcpe-launcher version selection), [src/Ini.ts] (the INI reader)
    and [src/Appx.ts] (the PowerShell package query).  JavaScript values are
    modelled as follows:

    - strings are [string]s: sequences of code units below 256 (every
      delimiter the code looks at is ASCII);
    - [undefined] in a string position is [None : option string];
    - a [Map] is an association list in insertion order, because
      [Map.prototype.values] iterates in insertion order;
    - effects ([fs.existsSync], [readFile], [execFile]) are answered by a
      [Host] record and logged in a trace; a thrown [Error] is the [Throw]
      outcome of a computation. *)

From Stdlib Require Import Ascii String ZArith Lia.
From stdpp Require Import base tactics option list strings pretty numbers.

#[local] Set Warnings "-register-all".

Local Open Scope string_scope.
Local Open Scope list_scope.

(** ** JavaScript strings *)

Module JS.

Definition LF : ascii := "010"%char.
Definition nl : string := String LF "".
Definition dquote : string := String "034"%char "".

(** [s.startsWith(p)] *)
Fixpoint startsWith (s p : string) : bool :=
  match p with
  | "" => true
  | String c p' =>
      match s with
      | "" => false
      | String d s' => if Ascii.eqb c d then startsWith s' p' else false
      end
  end.

(** [s.endsWith(p)] *)
Definition endsWith (s p : string) : bool :=
  startsWith (String.rev s) (String.rev p).

(** [s.split(sep)] for a one-character separator: never the empty array. *)
Fixpoint split (sep : ascii) (s : string) : list string :=
  match s with
  | "" => [""]
  | String c s' =>
      match split sep s' with
      | [] => [String c ""]
      | piece :: pieces =>
          if Ascii.eqb c sep then "" :: piece :: pieces
          else String c piece :: pieces
      end
  end.

(** [s.split(sep, limit)]: the array of all pieces, cut after [limit]. *)
Definition split_limit (sep : ascii) (limit : nat) (s : string) : list string :=
  take limit (split sep s).

(** [s.slice(from, to)] with JavaScript's treatment of negative indices. *)
Definition slice (s : string) (from to : Z) : string :=
  let len := Z.of_nat (String.length s) in
  let clamp i := if (i <? 0)%Z then Z.max (len + i) 0 else Z.min i len in
  let a := clamp from in
  let b := clamp to in
  String.substring (Z.to_nat a) (Z.to_nat (b - a)) s.

(** Template-literal interpolation of a value that may be [undefined]. *)
Definition interp (v : option string) : string :=
  match v with
  | Some s => s
  | None => "undefined"
  end.

(** Truthiness of a string-or-undefined value. *)
Definition truthy (v : option string) : bool :=
  match v with
  | Some s => negb (String.eqb s "")
  | None => false
  end.

(** The enumerable keys of an array of length [n], in the order a
    [for ... in] loop visits them: ["0"], ["1"], ... *)
Definition array_keys {A} (xs : list A) : list string :=
  map (λ i : nat, pretty i) (seq 0 (length xs)).

End JS.

(** ** JavaScript [Map] with string keys *)

Module JSMap.

Definition t (V : Type) : Type := list (string * V).

Definition empty {V} : t V := [].

(** [m.set(k, v)]: an existing key keeps its position, a new key goes last. *)
Fixpoint set {V} (m : t V) (k : string) (v : V) : t V :=
  match m with
  | [] => [(k, v)]
  | (k', v') :: rest =>
      if String.eqb k' k then (k, v) :: rest else (k', v') :: set rest k v
  end.

(** [m.get(k)]; [None] when the key is absent. *)
Fixpoint get {V} (m : t V) (k : string) : option V :=
  match m with
  | [] => None
  | (k', v') :: rest => if String.eqb k' k then Some v' else get rest k
  end.

(** [[...m.keys()]] and [[...m.values()]] *)
Definition keys {V} (m : t V) : list string := map fst m.
Definition values {V} (m : t V) : list V := map snd m.

End JSMap.

(** A [Map<string, string>] whose stored values may be [undefined]. *)
Abbreviation StrMap := (JSMap.t (option string)).

(** [m.get(k)] as a JavaScript value: [undefined] both for an absent key and
    for a key stored with the value [undefined]. *)
Definition js_get (m : StrMap) (k : string) : option string :=
  match JSMap.get m k with
  | Some v => v
  | None => None
  end.

(** ** The INI reader ([src/Ini.ts]) *)

Record IniData := mkIniData {
  global : StrMap;
  sections : JSMap.t StrMap;
}.

(** The reader mutates [Map] objects through two aliases ([currentSection]
    and the entry of [iniData.sections]), so the parser state keeps the
    objects in a store and refers to them by allocation index.  Object [0]
    is [iniData.global]. *)
Record IniState := mkIniState {
  objs : list StrMap;
  sectionRefs : JSMap.t nat;
  currentSection : nat;
}.

Definition iniInit : IniState :=
  {| objs := [JSMap.empty]; sectionRefs := JSMap.empty; currentSection := 0 |}.

(** The body of the [for] loop of [parseIni], for one value of [line]. *)
Definition iniStep (st : IniState) (line : string) : IniState :=
  if String.eqb line "" || JS.startsWith line ";" then st
  else if JS.startsWith line "[" && JS.endsWith line "]" then
    let r := length (objs st) in
    {| objs := objs st ++ [JSMap.empty];
       sectionRefs := JSMap.set (sectionRefs st) (JS.slice line 1 (-1)) r;
       currentSection := r |}
  else
    let parts := JS.split_limit "=" 2 line in
    let key := default "" (parts !! 0) in
    let value := parts !! 1 in
    {| objs := alter (λ m, JSMap.set m key value) (currentSection st) (objs st);
       sectionRefs := sectionRefs st;
       currentSection := currentSection st |}.

(** The [iniData] object as the caller sees it once the loop is over. *)
Definition iniFreeze (st : IniState) : IniData :=
  {| global := default JSMap.empty (objs st !! 0);
     sections :=
       map (λ e : string * nat, (e.1, default JSMap.empty (objs st !! e.2)))
           (sectionRefs st) |}.

(** The loop run over an explicit sequence of values of [line]. *)
Definition iniRun (lines : list string) : IniState :=
  fold_left iniStep lines iniInit.

(** [parseIni]: the loop is [for (const line in lines)], which binds [line]
    to the keys of the array [lines], not to its elements. *)
Definition parseIni (data : string) : IniData :=
  let lines := JS.split JS.LF data in
  iniFreeze (iniRun (JS.array_keys lines)).

(** The same loop over the elements of [lines] (what [for ... of] would
    visit).  Used only to describe the loop body's behaviour on line text. *)
Definition parseLines (lines : list string) : IniData :=
  iniFreeze (iniRun lines).

(** ** Numbers *)

(** The numbers the resolver handles are integers produced by
    [Number.parseInt] and only ever compared.  [Num z] is the double whose
    value is the integer [z]; the two infinities are [Num (2^1024)] and
    [Num (-2^1024)], which sit above and below every finite double, so
    comparisons are those of [Z]. *)
Inductive JSNumber :=
| NaN
| Num (z : Z).

Definition isNaN (x : JSNumber) : bool :=
  match x with
  | NaN => true
  | Num _ => false
  end.

(** [a > b] on numbers: false as soon as one side is [NaN]. *)
Definition gt (a b : JSNumber) : bool :=
  match a, b with
  | Num x, Num y => (y <? x)%Z
  | _, _ => false
  end.

Module ParseInt.

(** White space skipped in front of the number (code units below 256). *)
Definition is_space (c : ascii) : bool :=
  let n := nat_of_ascii c in
  (n =? 9)%nat || (n =? 10)%nat || (n =? 11)%nat || (n =? 12)%nat
  || (n =? 13)%nat || (n =? 32)%nat || (n =? 160)%nat.

Fixpoint trimStart (s : string) : string :=
  match s with
  | String c s' => if is_space c then trimStart s' else s
  | "" => ""
  end.

(** The value of a digit in the given radix, if it is one. *)
Definition digit (radix : Z) (c : ascii) : option Z :=
  let n := Z.of_nat (nat_of_ascii c) in
  let v :=
    if (48 <=? n)%Z && (n <=? 57)%Z then Some (n - 48)%Z
    else if (97 <=? n)%Z && (n <=? 122)%Z then Some (n - 87)%Z
    else if (65 <=? n)%Z && (n <=? 90)%Z then Some (n - 55)%Z
    else None in
  match v with
  | Some d => if (d <? radix)%Z then Some d else None
  | None => None
  end.

(** The longest prefix of digits, most significant first. *)
Fixpoint digits (radix : Z) (s : string) : list Z :=
  match s with
  | String c s' =>
      match digit radix c with
      | Some d => d :: digits radix s'
      | None => []
      end
  | "" => []
  end.

Definition value (radix : Z) (ds : list Z) : Z :=
  fold_left (λ acc d, acc * radix + d)%Z ds 0%Z.

(** Round an integer to the nearest double, ties to even; an overflow
    gives the representation [2^1024] of an infinity. *)
Definition round_double (z : Z) : Z :=
  let a := Z.abs z in
  if (a <? 2 ^ 53)%Z then z
  else
    let s := (Z.log2 a - 52)%Z in
    let q := Z.shiftr a s in
    let r := (a - Z.shiftl q s)%Z in
    let half := (2 ^ (s - 1))%Z in
    let q' := if (half <? r)%Z || ((r =? half)%Z && Z.odd q) then (q + 1)%Z else q in
    let m := Z.shiftl q' s in
    (Z.sgn z * Z.min m (2 ^ 1024))%Z.

(** [Number.parseInt(s)] with no radix argument. *)
Definition parseInt (s : string) : JSNumber :=
  let s1 := trimStart s in
  let '(negative, s2) :=
    match s1 with
    | String "-" r => (true, r)
    | String "+" r => (false, r)
    | _ => (false, s1)
    end in
  let '(radix, s3) :=
    match s2 with
    | String "0" (String "x" r) => (16%Z, r)
    | String "0" (String "X" r) => (16%Z, r)
    | _ => (10%Z, s2)
    end in
  match digits radix s3 with
  | [] => NaN
  | ds =>
      let n := value radix ds in
      Num (round_double (if negative then (- n)%Z else n))
  end.

End ParseInt.

(** ** Errors, effects and the host *)

(** An [Error] object: its message and, for file-system errors, the
    [path] and [code] properties (otherwise [undefined]). *)
Record JSError := mkError {
  message : string;
  errPath : option string;
  errCode : option string;
}.

(** [new Error(msg)] *)
Definition newError (msg : string) : JSError :=
  {| message := msg; errPath := None; errCode := None |}.

(** What a call does to the outside world, in program order. *)
Inductive Event :=
| FsExistsSync (p : string)
| FsReadFile (p : string)
| ExecFile (file : string) (args : list string).

Inductive Outcome (A : Type) :=
| Return (a : A)
| Throw (e : JSError).
Arguments Return {A} a.
Arguments Throw {A} e.

(** A computation: the events it performed and how it ended. *)
Definition Eff (A : Type) : Type := list Event * Outcome A.

Definition ret {A} (a : A) : Eff A := ([], Return a).
Definition throw {A} (e : JSError) : Eff A := ([], Throw e).
Definition emit (ev : Event) : Eff unit := ([ev], Return tt).

Definition bind {A B} (m : Eff A) (k : A → Eff B) : Eff B :=
  match m with
  | (t, Return a) => let '(t', r) := k a in (t ++ t', r)
  | (t, Throw e) => (t, Throw e)
  end.

(** [try { m } catch (e) { handler e }] *)
Definition catch {A} (m : Eff A) (handler : JSError → Eff A) : Eff A :=
  match m with
  | (t, Return a) => (t, Return a)
  | (t, Throw e) => let '(t', r) := handler e in (t ++ t', r)
  end.

Notation "'let*' x ':=' m 'in' k" := (bind m (λ x, k))
  (at level 10, x name, m at level 100, k at level 200).

Definition trace {A} (m : Eff A) : list Event := m.1.
Definition outcome {A} (m : Eff A) : Outcome A := m.2.

(** A value produced by [JSON.parse]. *)
Inductive JSValue :=
| JNull
| JBool (b : bool)
| JNum (lexeme : string)
| JStr (s : string)
| JArr (items : list JSValue)
| JObj (props : list (string * JSValue)).

(** The three arguments of [execFile]'s callback. *)
Record ExecResult := mkExecResult {
  execError : option JSError;
  stdout : string;
  stderr : string;
}.

Record ExecOptions := mkExecOptions {
  timeout : nat;
  windowsHide : bool;
}.

(** The host: everything the resolver asks of Node and of the machine. *)
Record Host := mkHost {
  (** [os.platform()] *)
  platform : string;
  (** [os.homedir()] *)
  homedir : string;
  (** [process.env[name]] *)
  env : string → option string;
  (** [fs.existsSync(p)] *)
  existsSync : string → bool;
  (** [readFile(p, { encoding: 'utf8', flag: 'r' })]: the text, or the
      file-system error it rejects with *)
  readFile : string → JSError + string;
  (** [execFile(file, args, options, callback)]: what the callback gets *)
  execFile : string → list string → ExecOptions → ExecResult;
  (** [path.join(...)] of the platform's [path] module *)
  path_join : list string → string;
  (** [JSON.parse(text)]: the value, or the [SyntaxError] it throws *)
  JSON_parse : string → JSError + JSValue;
  (** the [TypeError] of reading a property of [null] *)
  nullPropertyError : string → JSError;
  (** the [TypeError] of [path.join] on an argument that is not a string *)
  joinArgumentError : option JSValue → JSError;
  (** when the version lookup for a launcher root settles, relative to the
      others started by the same call *)
  settleTime : string → nat;
}.

(** ** [Promise.all] *)

(** Each promise comes with the time at which it settles.  All of them have
    been started (their events are in the trace, in starting order) before
    the result is known.  The result is the array of values when every
    promise is fulfilled, and otherwise the reason of the rejection that
    settles first (the earlier promise on equal times). *)
Fixpoint firstRejection {A} (ps : list (nat * Outcome A)) : option (nat * JSError) :=
  match ps with
  | [] => None
  | (t, Return _) :: rest => firstRejection rest
  | (t, Throw e) :: rest =>
      match firstRejection rest with
      | Some (t', e') => if (t' <? t)%nat then Some (t', e') else Some (t, e)
      | None => Some (t, e)
      end
  end.

Fixpoint fulfilled {A} (os : list (Outcome A)) : list A :=
  match os with
  | [] => []
  | Return a :: rest => a :: fulfilled rest
  | Throw _ :: rest => fulfilled rest
  end.

Definition Promise_all {A} (ps : list (nat * Eff A)) : Eff (list A) :=
  (concat (map (λ p, trace p.2) ps),
   match firstRejection (map (λ p, (p.1, outcome p.2)) ps) with
   | Some (_, e) => Throw e
   | None => Return (fulfilled (map (λ p, outcome p.2) ps))
   end).

(** ** The package query ([src/Appx.ts]) *)

Module Appx.

Definition hexDigit (n : nat) : ascii :=
  ascii_of_nat (if (n <? 10)%nat then 48 + n else 87 + n).

(** The escape of one code unit inside a JSON string literal. *)
Definition escapeChar (c : ascii) : string :=
  let n := nat_of_ascii c in
  if (n =? 34)%nat then "\" +:+ JS.dquote
  else if (n =? 92)%nat then "\\"
  else if (n =? 8)%nat then "\b"
  else if (n =? 9)%nat then "\t"
  else if (n =? 10)%nat then "\n"
  else if (n =? 12)%nat then "\f"
  else if (n =? 13)%nat then "\r"
  else if (n <? 32)%nat then
    "\u00" +:+ String (hexDigit (n / 16)) (String (hexDigit (n mod 16)) "")
  else String c "".

Fixpoint escape (s : string) : string :=
  match s with
  | "" => ""
  | String c s' => escapeChar c +:+ escape s'
  end.

(** [JSON.stringify(s)] for a string [s]. *)
Definition JSON_stringify (s : string) : string :=
  JS.dquote +:+ escape s +:+ JS.dquote.

(** The arguments and options [GetAppxPackage] passes to [execFile]. *)
Definition queryArgs (name : string) : list string :=
  [ "-NoLogo"; "-NoProfile"; "-NonInteractive"; "-WindowStyle"; "Hidden";
    "-Command";
    "& {Get-AppxPackage -Name " +:+ JSON_stringify name
      +:+ " | ConvertTo-Json -Compress}" ].

Definition queryOptions : ExecOptions :=
  {| timeout := 500; windowsHide := true |}.

Section Adapter.
Context (h : Host).

(** [GetAppxPackage(name)]: the promise's outcome is decided in the
    [execFile] callback. *)
Definition GetAppxPackage (name : string) : Eff JSValue :=
  let file := "powershell.exe" in
  let args := queryArgs name in
  let r := execFile h file args queryOptions in
  let* _ := emit (ExecFile file args) in
  match execError r with
  | Some error => throw error
  | None =>
      if negb (String.eqb (stderr r) "") then throw (newError (stderr r))
      else
        match JSON_parse h (stdout r) with
        | inr v => ret v
        | inl e => throw e
        end
  end.

End Adapter.
End Appx.

(** ** The resolvers ([src/Locations.ts]) *)

Record MCPEVersion := mkVersion {
  versionCode : JSNumber;
  versionName : string;
}.

(** [parseVersionSection] *)
Definition parseVersionSection (section : StrMap) : MCPEVersion :=
  {| versionCode := ParseInt.parseInt (JS.interp (js_get section "versionCode"));
     versionName :=
       let name := js_get section "versionName" in
       if JS.truthy name then JS.interp name else "" |}.

(** The records kept by the [filter] of [getAssetsLocation_mcpelauncher]. *)
Definition validVersion (v : MCPEVersion) : bool :=
  negb (isNaN (versionCode v)) && negb (String.eqb (versionName v) "").

Definition versionsOf (iniData : IniData) : list MCPEVersion :=
  List.filter validVersion (map parseVersionSection (JSMap.values (sections iniData))).

(** One turn of the loop that looks for the latest version. *)
Definition laterOf (maxVersion version : MCPEVersion) : MCPEVersion :=
  if gt (versionCode version) (versionCode maxVersion) then version else maxVersion.

(** [maxVersion] after the loop: [versions[0]] is [undefined] exactly when
    the array is empty, and then the loop body never runs. *)
Definition latestVersion (versions : list MCPEVersion) : option MCPEVersion :=
  match versions with
  | [] => None
  | first :: _ => Some (fold_left laterOf versions first)
  end.

Module Msg.

Definition noLocation : string :=
  "Could not determine the location of Bedrock's data files. The game is not installed or is installed in an unsupported location.".

Definition dataUnsupported (platform : string) : string :=
  "Could not determine the location of Bedrock's data files. The current platform ("
  +:+ platform
  +:+ ") is not supported. Supported platforms: win32 (Windows), darwin (MacOS), linux, android".

Definition assetsUnsupported (platform : string) : string :=
  "Could not determine the location of Bedrock's asset files. The current platform ("
  +:+ platform
  +:+ ") is not supported. Supported platforms: win32 (Windows), darwin (MacOS), linux".

Definition missingLocalAppData : string :=
  "Could not determine the location of Bedrock's data files. The LOCALAPPDATA environment variable is missing.".

Definition packageQueryPrefix : string :=
  "Could not determine the location of Bedrock's asset files. The package details command returned the following error:"
  +:+ JS.nl.

Definition packageQuery (underlying : string) : string :=
  packageQueryPrefix +:+ underlying.

Definition iniUnreadable (path code : option string) : string :=
  "Could not determine the location of Bedrock's asset files. There was an error reading the mcpe-launcher versions.ini file."
  +:+ JS.nl +:+ "Path: " +:+ JS.interp path
  +:+ JS.nl +:+ "Code: " +:+ JS.interp code.

Definition noValidVersion (versionsIniPath : string) : string :=
  "Could not determine the location of Bedrock's asset files. The mcpe-launcher versions file did not contain a valid version (or the format has been changed)."
  +:+ JS.nl +:+ "Path: " +:+ versionsIniPath.

End Msg.

Section Resolver.
Context (h : Host).

(** [paths.filter(fs.existsSync)] *)
Definition filterExisting (paths : list string) : Eff (list string) :=
  (map FsExistsSync paths, Return (List.filter (existsSync h) paths)).

(** [checkExists] *)
Definition checkExists (paths : list string) : Eff (list string) :=
  let* existingPaths := filterExisting paths in
  if (length existingPaths =? 0)%nat then throw (newError Msg.noLocation)
  else ret existingPaths.

Definition getDataLocations_Windows : Eff (list string) :=
  if JS.truthy (env h "LOCALAPPDATA") then
    ret [ path_join h
            [ JS.interp (env h "LOCALAPPDATA");
              "Packages/Microsoft.MinecraftUWP_8wekyb3d8bbwe/LocalState/games/com.mojang" ] ]
  else throw (newError Msg.missingLocalAppData).

Definition getDataLocations_MacOS : list string :=
  [ path_join h [homedir h; "Library/Application Support/mcpelauncher/games/com.mojang"] ].

Definition getDataLocations_Linux : list string :=
  [ path_join h [homedir h; ".local/share/mcpelauncher/games/com.mojang"];
    path_join h [homedir h; ".var/app/io.mrarm.mcpelauncher/data/mcpelauncher/games/com.mojang"] ].

Definition getDataLocations_Android : list string :=
  [ "/data/data/com.mojang.minecraftpe/games/com.mojang";
    "/sdcard/games/com.mojang" ].

(** [getDataLocations] *)
Definition getDataLocations : Eff (list string) :=
  let platform := platform h in
  if String.eqb platform "win32" then
    let* paths := getDataLocations_Windows in checkExists paths
  else if String.eqb platform "darwin" then checkExists getDataLocations_MacOS
  else if String.eqb platform "linux" then checkExists getDataLocations_Linux
  else if String.eqb platform "android" then checkExists getDataLocations_Android
  else throw (newError (Msg.dataUnsupported platform)).

(** [readIni] *)
Definition readIni (path : string) : Eff IniData :=
  let* _ := emit (FsReadFile path) in
  match readFile h path with
  | inr data => ret (parseIni data)
  | inl error => throw error
  end.

(** The part of [getAssetsLocation_mcpelauncher] that follows the read:
    the records, the loop and the final test. *)
Definition selectVersion (rootInstallPath versionsIniPath : string)
    (iniData : IniData) : Eff string :=
  let versions := versionsOf iniData in
  match latestVersion versions with
  | None => throw (newError (Msg.noValidVersion versionsIniPath))
  | Some maxVersion =>
      ret (path_join h [rootInstallPath; "versions"; versionName maxVersion; "assets"])
  end.

(** [getAssetsLocation_mcpelauncher] *)
Definition getAssetsLocation_mcpelauncher (rootInstallPath : string) : Eff string :=
  let versionsIniPath := path_join h [rootInstallPath; "versions/versions.ini"] in
  let* iniData :=
    catch (readIni versionsIniPath)
      (λ error, throw (newError (Msg.iniUnreadable (errPath error) (errCode error)))) in
  selectVersion rootInstallPath versionsIniPath iniData.

(** The last two lines shared by [getAssetsLocations_MacOS] and
    [getAssetsLocations_Linux], with the function mapped over the roots as
    a parameter: filter the roots, then
    [Promise.all(existingPaths.map(lookup))]. *)
Definition launcherAssetsWith (lookup : string → Eff string)
    (mcpeLauncherPaths : list string) : Eff (list string) :=
  let* existingPaths := filterExisting mcpeLauncherPaths in
  Promise_all
    (map (λ root, (settleTime h root, lookup root)) existingPaths).

(** The two lines as they stand, with [getAssetsLocation_mcpelauncher]. *)
Definition launcherAssets (mcpeLauncherPaths : list string) : Eff (list string) :=
  launcherAssetsWith getAssetsLocation_mcpelauncher mcpeLauncherPaths.

Definition launcherRoots_MacOS : list string :=
  [ path_join h [homedir h; "Library/Application Support/mcpelauncher/"] ].

Definition launcherRoots_Linux : list string :=
  [ path_join h [homedir h; ".local/share/mcpelauncher"];
    path_join h [homedir h; ".var/app/io.mrarm.mcpelauncher/data/mcpelauncher"] ].

Definition getAssetsLocations_MacOS : Eff (list string) :=
  launcherAssets launcherRoots_MacOS.

Definition getAssetsLocations_Linux : Eff (list string) :=
  launcherAssets launcherRoots_Linux.

(** [packageData.InstallLocation]: reading a property of [null] throws,
    any other value without the property gives [undefined]. *)
Definition installLocationOf (packageData : JSValue) : Eff (option JSValue) :=
  match packageData with
  | JNull => throw (nullPropertyError h "InstallLocation")
  | JObj props => ret (JSMap.get props "InstallLocation")
  | _ => ret None
  end.

Definition getAssetsLocations_Windows : Eff (list string) :=
  let* packageData :=
    catch (Appx.GetAppxPackage h "Microsoft.MinecraftUWP")
      (λ e, throw (newError (Msg.packageQuery (message e)))) in
  let* installLocation := installLocationOf packageData in
  match installLocation with
  | Some (JStr location) => ret [ path_join h [location; "data"] ]
  | other => throw (joinArgumentError h other)
  end.

(** [getAssetsLocations] *)
Definition getAssetsLocations : Eff (list string) :=
  let platform := platform h in
  if String.eqb platform "win32" then
    let* paths := getAssetsLocations_Windows in checkExists paths
  else if String.eqb platform "darwin" then
    let* paths := getAssetsLocations_MacOS in checkExists paths
  else if String.eqb platform "linux" then
    let* paths := getAssetsLocations_Linux in checkExists paths
  else throw (newError (Msg.assetsUnsupported platform)).

End Resolver.

(** * Vocabulary of the statements *)

(** ** Array keys *)

Fixpoint allChars (P : ascii → bool) (s : string) : bool :=
  match s with
  | "" => true
  | String c s' => P c && allChars P s'
  end.

Definition isDigit (c : ascii) : bool :=
  (48 <=? nat_of_ascii c)%nat && (nat_of_ascii c <=? 57)%nat.

(** A non-empty string of decimal digits: what an array key looks like. *)
Definition isIndexKey (s : string) : bool :=
  negb (String.eqb s "") && allChars isDigit s.

(** ** Lines of an INI text *)

(** The lines on which the loop body reaches its key/value branch. *)
Definition isKeyValueLine (line : string) : bool :=
  negb (String.eqb line "" || JS.startsWith line ";")
  && negb (JS.startsWith line "[" && JS.endsWith line "]").

(** The lines on which the loop body opens a section. *)
Definition isHeaderLine (line : string) : bool :=
  negb (String.eqb line "" || JS.startsWith line ";")
  && (JS.startsWith line "[" && JS.endsWith line "]").

Definition lineKey (line : string) : string :=
  default "" (JS.split_limit "=" 2 line !! 0).

Definition lineValue (line : string) : option string :=
  JS.split_limit "=" 2 line !! 1.

(** The value carried by the last line of [lines] whose key is [k];
    [start] when there is no such line. *)
Definition lastValue (k : string) (lines : list string)
    (start : option (option string)) : option (option string) :=
  fold_left (λ acc line, if String.eqb (lineKey line) k then Some (lineValue line) else acc)
            lines start.

Definition storeLine (m : StrMap) (line : string) : StrMap :=
  JSMap.set m (lineKey line) (lineValue line).

(** ** Version codes *)

(** The integer behind a version code that is a number. *)
Definition codeOf (v : MCPEVersion) : Z :=
  match versionCode v with
  | Num z => z
  | NaN => 0
  end.

Definition numeric (v : MCPEVersion) : Prop := isNaN (versionCode v) = false.

(** A string in which the separator does not occur. *)
Definition noSeparator (sep : ascii) (s : string) : bool :=
  allChars (λ c, negb (Ascii.eqb c sep)) s.

(** A text that is empty or begins with a section header. *)
Definition opensWithHeader (lines : list string) : bool :=
  match lines with
  | [] => true
  | next :: _ => isHeaderLine next
  end.

(** The header lines that file their section under [name]. *)
Definition isHeaderOf (name line : string) : bool :=
  isHeaderLine line && String.eqb (JS.slice line 1 (-1)) name.

(** The key/value lines that carry the key [k]. *)
Definition carriesKey (k line : string) : bool :=
  isKeyValueLine line && String.eqb (lineKey line) k.

(** ** Sections of a document *)

(** The lines the loop body skips: blank lines and comments. *)
Definition isSkippedLine (line : string) : bool :=
  String.eqb line "" || JS.startsWith line ";".

(** The names of the section headers of a text, in the order of the lines. *)
Definition headerNames (lines : list string) : list string :=
  map (λ line, JS.slice line 1 (-1)) (List.filter isHeaderLine lines).

Definition addName (seen : list string) (name : string) : list string :=
  if bool_decide (name ∈ seen) then seen else seen ++ [name].

(** The distinct names of a list, each at the place of its first occurrence. *)
Definition firstOccurrences (names : list string) : list string :=
  fold_left addName names [].

(** ** Events *)

Definition isProbe (ev : Event) : bool :=
  match ev with
  | FsExistsSync _ => true
  | _ => false
  end.

(** ** Package data *)

(** The install location a package-query result reports, if it is an object
    whose [InstallLocation] is a string. *)
Definition reportedLocation (packageData : JSValue) : option string :=
  match packageData with
  | JObj props =>
      match JSMap.get props "InstallLocation" with
      | Some (JStr location) => Some location
      | _ => None
      end
  | _ => None
  end.

(** * Sample inputs and hosts *)

(** The text of the reader's round-trip example. *)
Definition versionsSample : string :=
  "[a]" +:+ JS.nl +:+ "versionCode=5" +:+ JS.nl +:+ "versionName=foo" +:+ JS.nl.

(** A text of comment lines and blank lines only. *)
Definition commentsSample : string :=
  "; launcher versions" +:+ JS.nl +:+ JS.nl +:+ ";end".

(** The text with a section [s] in which the key [k] occurs twice. *)
Definition duplicateSample : string :=
  "[s]" +:+ JS.nl +:+ "k=1" +:+ JS.nl +:+ "k=2".

(** [path.posix.join]: the non-empty pieces joined by ["/"], normalised. *)
Module Posix.

Definition pushSegment (allowAboveRoot : bool) (stack : list string) (seg : string)
    : list string :=
  if String.eqb seg "" || String.eqb seg "." then stack
  else if String.eqb seg ".." then
    match stack with
    | top :: rest =>
        if String.eqb top ".." then ".." :: stack else rest
    | [] => if allowAboveRoot then [".."] else []
    end
  else seg :: stack.

Definition normalize (path : string) : string :=
  if String.eqb path "" then "."
  else
    let isAbsolute := JS.startsWith path "/" in
    let trailingSeparator := JS.endsWith path "/" in
    let segments :=
      rev (fold_left (pushSegment (negb isAbsolute)) (JS.split "/" path) []) in
    let body := String.concat "/" segments in
    if String.eqb body "" then
      if isAbsolute then "/" else if trailingSeparator then "./" else "."
    else
      let body := if trailingSeparator then body +:+ "/" else body in
      if isAbsolute then "/" +:+ body else body.

Definition join (pieces : list string) : string :=
  match List.filter (λ piece, negb (String.eqb piece "")) pieces with
  | [] => "."
  | nonEmpty => normalize (String.concat "/" nonEmpty)
  end.

End Posix.

Module Sample.

(** The error [readFile] rejects with for a missing file. *)
Definition enoent (p : string) : JSError :=
  {| message := "ENOENT: no such file or directory, open '" +:+ p +:+ "'";
     errPath := Some p;
     errCode := Some "ENOENT" |}.

Definition syntaxError : JSError := newError "Unexpected end of JSON input".

Definition timedOut : ExecResult :=
  {| execError := Some (newError "Command failed: powershell.exe");
     stdout := ""; stderr := "" |}.

Fixpoint backslashes (s : string) : string :=
  match s with
  | "" => ""
  | String c s' => String (if Ascii.eqb c "/" then "\"%char else c) (backslashes s')
  end.

(** [path.win32.join] on a drive-rooted first piece and pieces without
    empty, ["."] or [".."] segments: backslashes throughout. *)
Definition joinWin32 (pieces : list string) : string :=
  backslashes (String.concat "\" pieces).

Definition packageJson : string :=
  "{" +:+ JS.dquote +:+ "InstallLocation" +:+ JS.dquote +:+ ":"
  +:+ JS.dquote +:+ "C:\\Apps\\Minecraft" +:+ JS.dquote +:+ "}".

(** [JSON.parse] on the few texts the sample hosts produce. *)
Definition parseJson (text : string) : JSError + JSValue :=
  if String.eqb text packageJson then
    inr (JObj [("InstallLocation", JStr "C:\Apps\Minecraft")])
  else if String.eqb text "null" then inr JNull
  else if String.eqb text "{}" then inr (JObj [])
  else inl syntaxError.

Definition host (os : string) (join : list string → string)
    (localAppData : option string) (exists_ : string → bool)
    (files : string → JSError + string) (exec : ExecResult) : Host :=
  {| platform := os;
     homedir := "/home/steve";
     env := λ name, if String.eqb name "LOCALAPPDATA" then localAppData else None;
     existsSync := exists_;
     readFile := files;
     execFile := λ _ _ _, exec;
     path_join := join;
     JSON_parse := parseJson;
     nullPropertyError := λ p,
       newError ("Cannot read properties of null (reading '" +:+ p +:+ "')");
     joinArgumentError := λ _,
       newError "The path argument must be of type string";
     settleTime := λ _, 0 |}.

(** A POSIX host on which only the paths of [present] exist and only the
    files of [files] can be read. *)
Definition posix (os : string) (present : list string)
    (files : list (string * string)) : Host :=
  host os Posix.join None
    (λ p, bool_decide (p ∈ present))
    (λ p, match JSMap.get files p with Some text => inr text | None => inl (enoent p) end)
    timedOut.

Definition windows (localAppData : option string) (present : list string)
    (exec : ExecResult) : Host :=
  host "win32" joinWin32 localAppData (λ p, bool_decide (p ∈ present))
    (λ p, inl (enoent p)) exec.

(** A document with three sections: the valid versions 1 and 2, and a
    record whose code is the largest but whose name is empty. *)
Definition threeVersions : IniData :=
  parseLines
    [ "[one]"; "versionCode=1"; "versionName=x";
      "[two]"; "versionCode=2"; "versionName=y";
      "[nameless]"; "versionCode=9"; "versionName=" ].

(** A document without a valid record. *)
Definition noVersions : IniData :=
  parseLines
    [ "[broken]"; "versionCode=latest"; "versionName=z";
      "[nameless]"; "versionCode=9";
      "[codeless]"; "versionName=w" ].

Definition launcherRoot : string := "/home/steve/.local/share/mcpelauncher".

End Sample.

Module LinuxSample.

Definition rootA : string := "/home/steve/.local/share/mcpelauncher".
Definition rootB : string :=
  "/home/steve/.var/app/io.mrarm.mcpelauncher/data/mcpelauncher".

(** Both launcher roots exist; only the second has a versions file. *)
Definition twoRoots : Host :=
  Sample.posix "linux" [rootA; rootB]
    [ (rootB +:+ "/versions/versions.ini", versionsSample) ].

(** No launcher root exists. *)
Definition noRoot : Host := Sample.posix "linux" [] [].

(** Both launcher roots exist and both have a versions file. *)
Definition twoVersions : Host :=
  Sample.posix "linux" [rootA; rootB]
    [ (rootA +:+ "/versions/versions.ini", versionsSample);
      (rootB +:+ "/versions/versions.ini",
       "[b]" +:+ JS.nl +:+ "versionCode=7" +:+ JS.nl +:+ "versionName=bar") ].

(** A lookup that can succeed: [getAssetsLocation_mcpelauncher] with the
    document the loop body builds from the lines of the file. *)
Definition lookupLines (h : Host) (rootInstallPath : string) : Eff string :=
  let versionsIniPath := path_join h [rootInstallPath; "versions/versions.ini"] in
  let* iniData :=
    catch
      (let* _ := emit (FsReadFile versionsIniPath) in
       match readFile h versionsIniPath with
       | inr data => ret (parseLines (JS.split JS.LF data))
       | inl error => throw error
       end)
      (λ error, throw (newError (Msg.iniUnreadable (errPath error) (errCode error)))) in
  selectVersion h rootInstallPath versionsIniPath iniData.

End LinuxSample.

Module WindowsSample.

Definition localAppData : string := "C:\Users\steve\AppData\Local".

Definition dataPath : string :=
  "C:\Users\steve\AppData\Local\Packages\Microsoft.MinecraftUWP_8wekyb3d8bbwe\LocalState\games\com.mojang".

(** [LOCALAPPDATA] is set and the data directory exists; the package query
    answers with the package's JSON. *)
Definition installed : Host :=
  Sample.windows (Some localAppData) [dataPath; "C:\Apps\Minecraft\data"]
    {| execError := None; stdout := Sample.packageJson; stderr := "" |}.

(** [LOCALAPPDATA] is set to the empty string. *)
Definition emptyAppData : Host :=
  Sample.windows (Some "") [dataPath] Sample.timedOut.

(** [LOCALAPPDATA] is not set; the package query times out. *)
Definition bare : Host := Sample.windows None [dataPath] Sample.timedOut.

(** The package query writes to its standard error. *)
Definition complaining : Host :=
  Sample.windows None []
    {| execError := None; stdout := ""; stderr := "Get-AppxPackage : Access is denied." |}.

(** The package query prints an object without any property. *)
Definition emptyObject : Host :=
  Sample.windows None ["C:\Apps\Minecraft\data"]
    {| execError := None; stdout := "{}"; stderr := "" |}.

(** The package query prints nothing (the package is not installed). *)
Definition silent : Host :=
  Sample.windows None [] {| execError := None; stdout := ""; stderr := "" |}.

End WindowsSample.

(** Hosts on which something exists, but none of the resolvers' candidates. *)
Module OtherPaths.

Definition linux : Host := Sample.posix "linux" ["/"; "/home/steve"] [].
Definition windows : Host :=
  Sample.windows (Some WindowsSample.localAppData) ["C:\"; "C:\Apps\Minecraft"]
    {| execError := None; stdout := Sample.packageJson; stderr := "" |}.

End OtherPaths.

Module EmptyDisk.

Definition linux : Host := Sample.posix "linux" [] [].

End EmptyDisk.

(** * Properties *)

(** ** Computations *)

Lemma outcome_bind_Return {A B} (m : Eff A) (k : A → Eff B) a :
  outcome m = Return a → outcome (bind m k) = outcome (k a).
Proof.
  destruct m as [t o]; simpl; intros ->; simpl.
  by destruct (k a).
Qed.

Lemma outcome_bind_Throw {A B} (m : Eff A) (k : A → Eff B) e :
  outcome m = Throw e → outcome (bind m k) = Throw e.
Proof. destruct m as [t o]; simpl; by intros ->. Qed.

(** Unfold the plumbing of computations, leaving the program's own
    definitions folded. *)
Ltac eff_simpl :=
  cbv beta iota zeta delta [bind catch emit ret throw trace outcome fst snd];
  cbn [app].

(** ** Strings and array keys *)

Lemma split_without_separator sep s :
  allChars (λ c, negb (Ascii.eqb c sep)) s = true → JS.split sep s = [s].
Proof.
  induction s as [|c s IH]; simpl; [done|].
  intros [Hc Hs]%andb_true_iff. rewrite (IH Hs).
  by apply negb_true_iff in Hc as ->.
Qed.

Lemma allChars_impl (P Q : ascii → bool) s :
  (∀ c, P c = true → Q c = true) → allChars P s = true → allChars Q s = true.
Proof.
  intros HPQ. induction s as [|c s IH]; simpl; [done|].
  intros [Hc Hs]%andb_true_iff. by rewrite (HPQ c Hc), (IH Hs).
Qed.

Lemma isDigit_pretty_N_char x : isDigit (pretty_N_char x) = true.
Proof. unfold pretty_N_char. by repeat case_match. Qed.

Lemma pretty_N_go_digits x s :
  allChars isDigit s = true → allChars isDigit (pretty_N_go x s) = true.
Proof.
  revert s. induction (N.lt_wf_0 x) as [x _ IH]; intros s Hs.
  destruct (decide (0 < x)%N) as [Hx|Hx].
  - rewrite pretty_N_go_step by done. apply IH.
    + by apply N.div_lt.
    + simpl. by rewrite isDigit_pretty_N_char, Hs.
  - assert (x = 0%N) as -> by lia. by rewrite pretty_N_go_0.
Qed.

Lemma pretty_N_go_nonempty x s : s ≠ "" → pretty_N_go x s ≠ "".
Proof.
  revert s. induction (N.lt_wf_0 x) as [x _ IH]; intros s Hs.
  destruct (decide (0 < x)%N) as [Hx|Hx].
  - rewrite pretty_N_go_step by done. apply IH; [by apply N.div_lt|done].
  - assert (x = 0%N) as -> by lia. by rewrite pretty_N_go_0.
Qed.

Lemma isIndexKey_pretty (i : nat) : isIndexKey (pretty i) = true.
Proof.
  unfold isIndexKey, pretty, pretty_nat, pretty, pretty_N.
  case_decide as Hi; [done|].
  apply andb_true_iff; split.
  - apply negb_true_iff, String.eqb_neq.
    assert (0 < N.of_nat i)%N as Hpos by lia.
    rewrite pretty_N_go_step by done.
    by apply pretty_N_go_nonempty.
  - by apply pretty_N_go_digits.
Qed.

Lemma array_keys_index {A} (xs : list A) :
  Forall (λ k, isIndexKey k = true) (JS.array_keys xs).
Proof.
  unfold JS.array_keys. apply Forall_fmap, Forall_forall.
  intros i _. apply isIndexKey_pretty.
Qed.

Lemma array_keys_NoDup {A} (xs : list A) : NoDup (JS.array_keys xs).
Proof.
  unfold JS.array_keys. apply (NoDup_fmap_2 _), NoDup_seq.
Qed.

Lemma array_keys_length {A} (xs : list A) :
  length (JS.array_keys xs) = length xs.
Proof. unfold JS.array_keys. by rewrite length_fmap, length_seq. Qed.

Lemma split_nonempty sep s : JS.split sep s ≠ [].
Proof.
  destruct s as [|c s]; simpl; [done|].
  destruct (JS.split sep s); [done|]. by destruct (Ascii.eqb c sep).
Qed.

(** ** Maps *)

Lemma set_fresh {V} (m : JSMap.t V) k v :
  k ∉ JSMap.keys m → JSMap.set m k v = m ++ [(k, v)].
Proof.
  induction m as [|[k' v'] m IH]; simpl; [done|].
  intros Hk. apply not_elem_of_cons in Hk as [Hne Hk].
  destruct (String.eqb_spec k' k) as [->|_]; [done|].
  by rewrite IH.
Qed.

Lemma get_set_same {V} (m : JSMap.t V) k v : JSMap.get (JSMap.set m k v) k = Some v.
Proof.
  induction m as [|[k' v'] m IH]; simpl.
  - by rewrite String.eqb_refl.
  - destruct (String.eqb_spec k' k) as [->|Hne]; simpl.
    + by rewrite String.eqb_refl.
    + by destruct (String.eqb_spec k' k).
Qed.

Lemma get_set_other {V} (m : JSMap.t V) k k' v :
  k ≠ k' → JSMap.get (JSMap.set m k v) k' = JSMap.get m k'.
Proof.
  intros Hne. induction m as [|[k0 v0] m IH]; simpl.
  - by destruct (String.eqb_spec k k').
  - destruct (String.eqb_spec k0 k) as [->|Hne0]; simpl.
    + by destruct (String.eqb_spec k k').
    + by rewrite IH.
Qed.

Lemma keys_set_present {V} (m : JSMap.t V) k v :
  k ∈ JSMap.keys m → JSMap.keys (JSMap.set m k v) = JSMap.keys m.
Proof.
  induction m as [|[k' v'] m IH]; simpl; [by intros ?%elem_of_nil|].
  intros Hk. destruct (String.eqb_spec k' k) as [->|Hne]; simpl; [done|].
  apply elem_of_cons in Hk as [->|Hk]; [done|]. by rewrite IH.
Qed.

Lemma keys_set_absent {V} (m : JSMap.t V) k v :
  k ∉ JSMap.keys m → JSMap.keys (JSMap.set m k v) = JSMap.keys m ++ [k].
Proof.
  intros Hk. rewrite (set_fresh _ _ _ Hk). unfold JSMap.keys.
  by rewrite fmap_app.
Qed.

Lemma keys_set_NoDup {V} (m : JSMap.t V) k v :
  NoDup (JSMap.keys m) → NoDup (JSMap.keys (JSMap.set m k v)).
Proof.
  intros Hm. destruct (decide (k ∈ JSMap.keys m)) as [Hin|Hout].
  - by rewrite keys_set_present.
  - rewrite keys_set_absent by done. apply list.NoDup_app; split_and!; [done| |].
    + intros x Hx ->%list_elem_of_singleton. done.
    + apply NoDup_singleton.
Qed.

(** ** The INI reader *)

Lemma isDigit_not (c d : ascii) :
  isDigit d = false → isDigit c = true → Ascii.eqb d c = false.
Proof. intros Hd Hc. destruct (Ascii.eqb_spec d c) as [->|]; congruence. Qed.

(** On an array key the loop body takes the key/value branch, finds no
    ["="], and stores the key itself with the value [undefined]. *)
Lemma iniStep_index_key st k :
  isIndexKey k = true →
  iniStep st k =
    {| objs := alter (λ m, JSMap.set m k None) (currentSection st) (objs st);
       sectionRefs := sectionRefs st;
       currentSection := currentSection st |}.
Proof.
  unfold isIndexKey. intros [Hne Hdigits]%andb_true_iff.
  apply negb_true_iff in Hne. unfold iniStep. rewrite Hne.
  destruct k as [|c k]; [done|]. simpl in Hdigits.
  apply andb_true_iff in Hdigits as [Hc Hk].
  assert (JS.startsWith (String c k) ";" = false) as ->.
  { cbn [JS.startsWith]. by rewrite (isDigit_not c ";"). }
  assert (JS.startsWith (String c k) "[" = false) as ->.
  { cbn [JS.startsWith]. by rewrite (isDigit_not c "["). }
  simpl orb. simpl andb. cbv iota.
  assert (JS.split_limit "=" 2 (String c k) = [String c k]) as ->.
  { unfold JS.split_limit. rewrite split_without_separator; [done|].
    apply (allChars_impl isDigit); [|by simpl; rewrite Hc, Hk].
    intros d Hd. apply negb_true_iff.
    rewrite (Ascii.eqb_sym d "="). by apply isDigit_not. }
  done.
Qed.

Lemma iniRun_index_keys keys m :
  Forall (λ k, isIndexKey k = true) keys →
  NoDup (JSMap.keys m ++ keys) →
  fold_left iniStep keys
    {| objs := [m]; sectionRefs := JSMap.empty; currentSection := 0 |}
  = {| objs := [m ++ map (λ k, (k, None)) keys];
       sectionRefs := JSMap.empty; currentSection := 0 |}.
Proof.
  revert m. induction keys as [|k keys IH]; intros m Hkeys Hnd; simpl.
  - by rewrite app_nil_r.
  - apply list.Forall_cons in Hkeys as [Hk Hkeys].
    rewrite (iniStep_index_key _ _ Hk). simpl.
    apply list.NoDup_app in Hnd as (Hm & Hdisj & Hks).
    apply list.NoDup_cons in Hks as [Hk_fresh Hks].
    rewrite set_fresh by (intros Hin; apply (Hdisj _ Hin); left).
    rewrite IH; [by rewrite <-app_assoc|done|].
    unfold JSMap.keys. rewrite fmap_app. simpl.
    apply list.NoDup_app; split_and!; [|  |done].
    + apply list.NoDup_app; split_and!; [done| |apply NoDup_singleton].
      intros x Hx ->%list_elem_of_singleton. apply (Hdisj _ Hx). left.
    + intros x [Hx| ->%list_elem_of_singleton]%elem_of_app Hin; [|done].
      apply (Hdisj _ Hx). by right.
Qed.

(** What [parseIni] returns, for every text: the global mapping holds one
    entry per line of the text, keyed by the line's index and valued
    [undefined]; there is no section. *)
Theorem parseIni_reads_indices data :
  parseIni data =
    {| global := map (λ k, (k, None)) (JS.array_keys (JS.split JS.LF data));
       sections := JSMap.empty |}.
Proof.
  unfold parseIni, iniRun, iniInit. cbv zeta.
  rewrite iniRun_index_keys.
  - done.
  - apply array_keys_index.
  - simpl. apply array_keys_NoDup.
Qed.

Corollary parseIni_no_section data : sections (parseIni data) = [].
Proof. by rewrite parseIni_reads_indices. Qed.

Corollary parseIni_global_nonempty data : global (parseIni data) ≠ [].
Proof.
  rewrite parseIni_reads_indices. simpl.
  intros Hnil%(f_equal length). rewrite length_map, array_keys_length in Hnil.
  by destruct (JS.split JS.LF data) eqn:Hs; [apply split_nonempty in Hs|].
Qed.

(** C1: parsing the example text is claimed to give one section ["a"] with
    [versionCode="5"] and [versionName="foo"], and parsing comments and
    blank lines an empty document.  The reader returns neither: the loop
    visits the indices of the lines, so the example text gives four global
    entries ["0"]..["3"] with value [undefined] and no section, and the
    comment text gives three global entries.  The loop body itself, run on
    the lines, gives what the claim says. *)
Theorem parseIni_example_misread :
  parseIni versionsSample =
    {| global := [("0", None); ("1", None); ("2", None); ("3", None)];
       sections := [] |}
  ∧ parseIni commentsSample =
    {| global := [("0", None); ("1", None); ("2", None)]; sections := [] |}
  ∧ parseLines (JS.split JS.LF versionsSample) =
    {| global := [];
       sections := [("a", [("versionCode", Some "5"); ("versionName", Some "foo")])] |}
  ∧ parseLines (JS.split JS.LF commentsSample) = {| global := []; sections := [] |}.
Proof. by vm_compute. Qed.

Lemma iniStep_key_value st line :
  isKeyValueLine line = true →
  iniStep st line =
    {| objs := alter (λ m, storeLine m line) (currentSection st) (objs st);
       sectionRefs := sectionRefs st;
       currentSection := currentSection st |}.
Proof.
  unfold isKeyValueLine, iniStep.
  intros [->%negb_true_iff ->%negb_true_iff]%andb_true_iff. done.
Qed.

Lemma iniStep_header st line :
  isHeaderLine line = true →
  iniStep st line =
    {| objs := objs st ++ [JSMap.empty];
       sectionRefs := JSMap.set (sectionRefs st) (JS.slice line 1 (-1)) (length (objs st));
       currentSection := length (objs st) |}.
Proof.
  unfold isHeaderLine, iniStep.
  intros [->%negb_true_iff ->]%andb_true_iff. done.
Qed.

Lemma iniRun_key_values lines st :
  forallb isKeyValueLine lines = true →
  fold_left iniStep lines st =
    {| objs := alter (λ m, fold_left storeLine lines m) (currentSection st) (objs st);
       sectionRefs := sectionRefs st;
       currentSection := currentSection st |}.
Proof.
  revert st. induction lines as [|line lines IH]; intros st Hkv; simpl.
  - destruct st as [os refs cur]; simpl. f_equal.
    symmetry. by apply list_alter_id.
  - apply andb_true_iff in Hkv as [Hline Hlines].
    rewrite (iniStep_key_value _ _ Hline), (IH _ Hlines). simpl.
    f_equal. by rewrite list_alter_alter_eq.
Qed.

Lemma get_storeLine m line k :
  JSMap.get (storeLine m line) k =
    if String.eqb (lineKey line) k then Some (lineValue line) else JSMap.get m k.
Proof.
  unfold storeLine. destruct (String.eqb_spec (lineKey line) k) as [<-|Hne].
  - apply get_set_same.
  - by apply get_set_other.
Qed.

Lemma get_fold_storeLine lines m k :
  JSMap.get (fold_left storeLine lines m) k = lastValue k lines (JSMap.get m k).
Proof.
  unfold lastValue. revert m. induction lines as [|line lines IH]; intros m; simpl.
  - done.
  - by rewrite IH, get_storeLine.
Qed.

Lemma keys_fold_storeLine lines m :
  NoDup (JSMap.keys m) → NoDup (JSMap.keys (fold_left storeLine lines m)).
Proof.
  revert m. induction lines as [|line lines IH]; intros m Hm; simpl; [done|].
  by apply IH, keys_set_NoDup.
Qed.

Lemma get_deref (refs : JSMap.t nat) (f : nat → StrMap) name :
  JSMap.get (map (λ e : string * nat, (e.1, f e.2)) refs) name
  = f <$> JSMap.get refs name.
Proof.
  induction refs as [|[n r] refs IH]; simpl; [done|].
  by destruct (String.eqb n name).
Qed.

Lemma lastValue_app k earlier later start :
  lastValue k (earlier ++ later) start = lastValue k later (lastValue k earlier start).
Proof. unfold lastValue. apply fold_left_app. Qed.

Lemma lastValue_other k lines start :
  forallb (λ line, negb (String.eqb (lineKey line) k)) lines = true →
  lastValue k lines start = start.
Proof.
  unfold lastValue. revert start.
  induction lines as [|line lines IH]; intros start Hk; simpl; [done|].
  simpl in Hk. apply andb_true_iff in Hk as [->%negb_true_iff Hk]. by apply IH.
Qed.

Lemma lastValue_last k earlier line later start :
  lineKey line = k →
  forallb (λ l, negb (String.eqb (lineKey l) k)) later = true →
  lastValue k (earlier ++ line :: later) start = Some (lineValue line).
Proof.
  intros Hkey Hlater. rewrite lastValue_app.
  change (lastValue k (line :: later) ?s)
    with (lastValue k later
            (if String.eqb (lineKey line) k then Some (lineValue line) else s)).
  rewrite Hkey, String.eqb_refl. by apply lastValue_other.
Qed.

(** The document after a section header followed by key/value lines: the
    section's mapping is the one built from those lines alone. *)
Lemma parseLines_section before header lines :
  isHeaderLine header = true →
  forallb isKeyValueLine lines = true →
  JSMap.get (sections (parseLines (before ++ header :: lines))) (JS.slice header 1 (-1))
  = Some (fold_left storeLine lines JSMap.empty).
Proof.
  intros Hheader Hlines. unfold parseLines, iniRun.
  rewrite fold_left_app. simpl.
  rewrite (iniStep_header _ _ Hheader), (iniRun_key_values _ _ Hlines).
  unfold iniFreeze. cbn [sections objs sectionRefs currentSection].
  set (st := fold_left iniStep before iniInit).
  assert (alter (λ m : StrMap, fold_left storeLine lines m) (length (objs st))
            (objs st ++ [JSMap.empty])
          = objs st ++ [fold_left storeLine lines JSMap.empty]) as ->.
  { rewrite <-(Nat.add_0_r (length (objs st))) at 1. by rewrite alter_app_r. }
  rewrite (get_deref _ (λ r, default JSMap.empty ((objs st ++ [_]) !! r))).
  rewrite get_set_same. simpl.
  by rewrite lookup_app_r, Nat.sub_diag by lia.
Qed.

Lemma parseLines_global lines :
  forallb isKeyValueLine lines = true →
  global (parseLines lines) = fold_left storeLine lines JSMap.empty.
Proof.
  intros Hlines. unfold parseLines, iniRun.
  by rewrite (iniRun_key_values _ _ Hlines).
Qed.

(** C7 (as stated) fails: the first occurrence's value ["1"] is not what the
    section holds for [k].  The loop body keeps the last value ["2"], and
    the reader, which never looks at the line text, has no section [s]. *)
Lemma duplicate_key_first_does_not_win :
  (JSMap.get (sections (parseLines (JS.split JS.LF duplicateSample))) "s"
     ≫= λ m, JSMap.get m "k") = Some (Some "2")
  ∧ JSMap.get (sections (parseIni duplicateSample)) "s" = None
  ∧ ¬ ((JSMap.get (sections (parseLines (JS.split JS.LF duplicateSample))) "s"
          ≫= λ m, JSMap.get m "k") = Some (Some "1"))
  ∧ ¬ ((JSMap.get (sections (parseIni duplicateSample)) "s"
          ≫= λ m, JSMap.get m "k") = Some (Some "1")).
Proof. by vm_compute. Qed.

Lemma gt_codeOf a b :
  numeric a → numeric b → gt (versionCode a) (versionCode b) = (codeOf b <? codeOf a)%Z.
Proof.
  unfold numeric, codeOf. by destruct (versionCode a), (versionCode b).
Qed.

Lemma validVersion_spec v :
  validVersion v = true ↔ numeric v ∧ versionName v ≠ "".
Proof.
  unfold validVersion, numeric.
  rewrite andb_true_iff, !negb_true_iff, String.eqb_neq. done.
Qed.

Lemma versionsOf_spec iniData v :
  v ∈ versionsOf iniData ↔
    v ∈ map parseVersionSection (JSMap.values (sections iniData))
    ∧ numeric v ∧ versionName v ≠ "".
Proof.
  unfold versionsOf. rewrite !list_elem_of_In, filter_In, validVersion_spec. done.
Qed.

Lemma versionsOf_numeric iniData : Forall numeric (versionsOf iniData).
Proof. apply list.Forall_forall. by intros v (_ & ? & _)%versionsOf_spec. Qed.

(** The loop keeps the running maximum: either nothing in [versions] beats
    the starting record, or the result is the first record of [versions]
    that beats the start and everything before it. *)
Lemma fold_laterOf versions start :
  numeric start → Forall numeric versions →
  (fold_left laterOf versions start = start
   ∧ Forall (λ v, codeOf v ≤ codeOf start)%Z versions)
  ∨ (∃ before after,
        versions = before ++ fold_left laterOf versions start :: after
        ∧ (codeOf start < codeOf (fold_left laterOf versions start))%Z
        ∧ Forall (λ v, codeOf v < codeOf (fold_left laterOf versions start))%Z before
        ∧ Forall (λ v, codeOf v ≤ codeOf (fold_left laterOf versions start))%Z after).
Proof.
  intros Hstart Hall. revert start Hstart.
  induction Hall as [|v versions Hv Hall IH]; intros start Hstart.
  - left. split; [done|constructor].
  - cbn [fold_left].
    assert (laterOf start v = if (codeOf start <? codeOf v)%Z then v else start)
      as -> by (unfold laterOf; by rewrite gt_codeOf).
    destruct (Z.ltb_spec (codeOf start) (codeOf v)) as [Hlt|Hge].
    + right. destruct (IH v Hv) as [[Heq Hle]|(before & after & Hsplit & Hlt' & Hb & Ha)].
      * exists [], versions. rewrite Heq. split_and!; [done|done|constructor|done].
      * exists (v :: before), after.
        split_and!; [by rewrite Hsplit at 1|lia| |done].
        constructor; [lia|done].
    + destruct (IH start Hstart) as [[Heq Hle]|(before & after & Hsplit & Hlt' & Hb & Ha)].
      * left. split; [done|]. by constructor.
      * right. exists (v :: before), after.
        split_and!; [by rewrite Hsplit at 1|done| |done].
        constructor; [lia|done].
Qed.

(** [latestVersion] picks the earliest record among those with the greatest
    version code. *)
Lemma latestVersion_spec versions :
  Forall numeric versions → versions ≠ [] →
  ∃ best before after,
    latestVersion versions = Some best
    ∧ versions = before ++ best :: after
    ∧ Forall (λ v, codeOf v < codeOf best)%Z before
    ∧ Forall (λ v, codeOf v ≤ codeOf best)%Z after.
Proof.
  destruct versions as [|first rest]; [done|]. intros Hall _.
  apply list.Forall_cons in Hall as [Hfirst Hrest].
  unfold latestVersion. cbn [fold_left].
  assert (laterOf first first = first) as ->.
  { unfold laterOf. by rewrite gt_codeOf, Z.ltb_irrefl by done. }
  destruct (fold_laterOf rest first Hfirst Hrest)
    as [[Heq Hle]|(before & after & Hsplit & Hlt & Hb & Ha)].
  - exists first, [], rest. rewrite Heq. split_and!; [done|done|constructor|done].
  - exists (fold_left laterOf rest first), (first :: before), after.
    split_and!; [done|by rewrite Hsplit at 1| |done].
    by constructor.
Qed.

(** ** Selecting the latest version *)

(** After a successful read the selector works on the parsed document. *)
Lemma getAssetsLocation_mcpelauncher_read h root data :
  readFile h (path_join h [root; "versions/versions.ini"]) = inr data →
  getAssetsLocation_mcpelauncher h root =
    ([FsReadFile (path_join h [root; "versions/versions.ini"])],
     outcome (selectVersion h root (path_join h [root; "versions/versions.ini"])
                (parseIni data))).
Proof.
  intros Hread. unfold getAssetsLocation_mcpelauncher, readIni. cbv zeta.
  rewrite Hread. unfold selectVersion. eff_simpl.
  destruct (latestVersion _); reflexivity.
Qed.

(** A failed read is reported with the path and code of the error. *)
Lemma getAssetsLocation_mcpelauncher_unreadable h root error :
  readFile h (path_join h [root; "versions/versions.ini"]) = inl error →
  getAssetsLocation_mcpelauncher h root =
    ([FsReadFile (path_join h [root; "versions/versions.ini"])],
     Throw (newError (Msg.iniUnreadable (errPath error) (errCode error)))).
Proof.
  intros Hread. unfold getAssetsLocation_mcpelauncher, readIni. cbv zeta.
  by rewrite Hread.
Qed.



(** The example of the specification: codes 1 and 2 give the path of ["y"];
    on equal codes the earlier record is kept. *)
Example selectVersion_sample :
  selectVersion (Sample.posix "linux" [] []) Sample.launcherRoot "ini" Sample.threeVersions
  = ret "/home/steve/.local/share/mcpelauncher/versions/y/assets"
  ∧ latestVersion
      [ {| versionCode := Num 7; versionName := "first" |};
        {| versionCode := Num 3; versionName := "low" |};
        {| versionCode := Num 7; versionName := "second" |} ]
    = Some {| versionCode := Num 7; versionName := "first" |}.
Proof. by vm_compute. Qed.

(** C5: the selector keeps exactly the records with a numeric [versionCode]
    and a non-empty [versionName]; what it returns is always built from a
    kept record; and when no record is kept it throws the error whose
    message is the "did not contain a valid version" text followed by a
    line ["Path: "] and the path of the versions file, which in
    [getAssetsLocation_mcpelauncher] is [<root>/versions/versions.ini]. *)
Theorem selectVersion_discards_invalid
    (h : Host) (rootInstallPath versionsIniPath : string) (iniData : IniData) :
  (∀ v, v ∈ versionsOf iniData ↔
        v ∈ map parseVersionSection (JSMap.values (sections iniData))
        ∧ isNaN (versionCode v) = false ∧ versionName v ≠ "")
  ∧ (∀ p, outcome (selectVersion h rootInstallPath versionsIniPath iniData) = Return p →
        ∃ best, best ∈ versionsOf iniData
                ∧ isNaN (versionCode best) = false ∧ versionName best ≠ ""
                ∧ p = path_join h [rootInstallPath; "versions"; versionName best; "assets"])
  ∧ (versionsOf iniData = [] →
        selectVersion h rootInstallPath versionsIniPath iniData
        = ([], Throw (newError
             ("Could not determine the location of Bedrock's asset files. The mcpe-launcher versions file did not contain a valid version (or the format has been changed)."
              +:+ JS.nl +:+ "Path: " +:+ versionsIniPath))))
  ∧ (∀ data,
        readFile h (path_join h [rootInstallPath; "versions/versions.ini"]) = inr data →
        versionsOf (parseIni data) = [] →
        outcome (getAssetsLocation_mcpelauncher h rootInstallPath)
        = Throw (newError
             ("Could not determine the location of Bedrock's asset files. The mcpe-launcher versions file did not contain a valid version (or the format has been changed)."
              +:+ JS.nl +:+ "Path: "
              +:+ path_join h [rootInstallPath; "versions/versions.ini"]))).
Proof.
  split_and!.
  - apply versionsOf_spec.
  - unfold selectVersion. cbv zeta.
    destruct (latestVersion (versionsOf iniData)) as [best|] eqn:Hlatest; [|done].
    intros p [= <-].
    assert (versionsOf iniData ≠ []) as Hne by (by intros Hnil; rewrite Hnil in Hlatest).
    destruct (latestVersion_spec _ (versionsOf_numeric iniData) Hne)
      as (best' & before & after & Hlatest' & Hsplit & _).
    assert (best' = best) as -> by congruence.
    assert (best ∈ versionsOf iniData) as Hin.
    { rewrite Hsplit. apply elem_of_app. right. left. }
    exists best. split; [done|].
    by apply versionsOf_spec in Hin as (_ & ? & ?).
  - intros Hnone. unfold selectVersion. cbv zeta. by rewrite Hnone.
  - intros data Hread Hnone.
    rewrite (getAssetsLocation_mcpelauncher_read _ _ _ Hread).
    unfold selectVersion; cbv zeta. by rewrite Hnone.
Qed.

Lemma selectVersion_discards_invalid_witness :
  selectVersion (Sample.posix "linux" [] []) Sample.launcherRoot
    "/home/steve/.local/share/mcpelauncher/versions/versions.ini" Sample.noVersions
  = ([], Throw (newError
       ("Could not determine the location of Bedrock's asset files. The mcpe-launcher versions file did not contain a valid version (or the format has been changed)."
        +:+ JS.nl +:+ "Path: "
        +:+ "/home/steve/.local/share/mcpelauncher/versions/versions.ini")))
  ∧ ∃ best, best ∈ versionsOf Sample.threeVersions
            ∧ isNaN (versionCode best) = false ∧ versionName best ≠ ""
            ∧ "/home/steve/.local/share/mcpelauncher/versions/y/assets"
              = path_join (Sample.posix "linux" [] [])
                  [Sample.launcherRoot; "versions"; versionName best; "assets"].
Proof.
  split.
  - apply (selectVersion_discards_invalid (Sample.posix "linux" [] [])
             Sample.launcherRoot
             "/home/steve/.local/share/mcpelauncher/versions/versions.ini"
             Sample.noVersions).
    vm_compute. reflexivity.
  - apply (selectVersion_discards_invalid (Sample.posix "linux" [] [])
             Sample.launcherRoot
             "/home/steve/.local/share/mcpelauncher/versions/versions.ini"
             Sample.threeVersions).
    vm_compute. reflexivity.
Defined.

(** With this reader the selector never returns: the document it gets has
    no section, so a readable versions file always ends in the
    "no valid version" error and an unreadable one in the read error. *)
Theorem getAssetsLocation_mcpelauncher_throws h root :
  ∃ e, outcome (getAssetsLocation_mcpelauncher h root) = Throw e.
Proof.
  destruct (readFile h (path_join h [root; "versions/versions.ini"])) as [error|data] eqn:Hread.
  - rewrite (getAssetsLocation_mcpelauncher_unreadable _ _ _ Hread). by eexists.
  - rewrite (getAssetsLocation_mcpelauncher_read _ _ _ Hread). simpl.
    unfold selectVersion, versionsOf. cbv zeta.
    rewrite parseIni_no_section. simpl. by eexists.
Qed.

(** ** The existence filter *)

Lemma checkExists_unfold h paths :
  checkExists h paths =
    (map FsExistsSync paths,
     match List.filter (existsSync h) paths with
     | [] => Throw (newError Msg.noLocation)
     | existing => Return existing
     end).
Proof.
  unfold checkExists, filterExisting. eff_simpl.
  destruct (List.filter (existsSync h) paths); simpl; by rewrite ?app_nil_r.
Qed.

Lemma filter_existing_all h paths :
  Forall (λ p, existsSync h p = true) (List.filter (existsSync h) paths).
Proof. apply list.Forall_forall. intros p Hp%list_elem_of_In%filter_In. tauto. Qed.

Lemma filter_existing_none h paths :
  Forall (λ p, existsSync h p = false) paths → List.filter (existsSync h) paths = [].
Proof.
  induction 1 as [|p paths Hp _ IH]; simpl; [done|]. by rewrite Hp.
Qed.

Lemma checkExists_Return h paths existing :
  outcome (checkExists h paths) = Return existing →
  existing ≠ [] ∧ Forall (λ p, existsSync h p = true) existing.
Proof.
  rewrite checkExists_unfold. simpl.
  destruct (List.filter (existsSync h) paths) as [|p rest] eqn:Hfilter; [done|].
  intros [= <-]. split; [done|]. rewrite <-Hfilter. apply filter_existing_all.
Qed.

Lemma checkExists_none h paths :
  Forall (λ p, existsSync h p = false) paths →
  outcome (checkExists h paths) = Throw (newError Msg.noLocation).
Proof.
  intros Hnone. rewrite checkExists_unfold. simpl.
  by rewrite filter_existing_none.
Qed.

(** Whatever produces the candidates, a result that went through
    [checkExists] is a non-empty list of existing paths. *)
Lemma checked_Return h (candidates : Eff (list string)) existing :
  outcome (let* paths := candidates in checkExists h paths) = Return existing →
  existing ≠ [] ∧ Forall (λ p, existsSync h p = true) existing.
Proof.
  destruct candidates as [t [paths|e]]; [|done].
  rewrite (outcome_bind_Return _ _ paths) by done. apply checkExists_Return.
Qed.

Lemma absent_everywhere h paths :
  (∀ p, existsSync h p = false) → Forall (λ p, existsSync h p = false) paths.
Proof. intros Hnone. apply list.Forall_forall. auto. Qed.

Lemma getDataLocations_Return h existing :
  outcome (getDataLocations h) = Return existing →
  existing ≠ [] ∧ Forall (λ p, existsSync h p = true) existing.
Proof.
  unfold getDataLocations. cbv zeta.
  repeat (case_match; [first [apply checked_Return|apply checkExists_Return]|]).
  done.
Qed.

Lemma getAssetsLocations_Return h existing :
  outcome (getAssetsLocations h) = Return existing →
  existing ≠ [] ∧ Forall (λ p, existsSync h p = true) existing.
Proof.
  unfold getAssetsLocations. cbv zeta.
  repeat (case_match; [apply checked_Return|]).
  done.
Qed.

(** ** [Promise.all] *)

Lemma firstRejection_Some {A} (ps : list (nat * Outcome A)) t e :
  firstRejection ps = Some (t, e) → (t, Throw e) ∈ ps.
Proof.
  induction ps as [|[t0 [a|e0]] ps IH]; simpl; [done| |].
  - intros H. right. by apply IH.
  - destruct (firstRejection ps) as [[t' e']|].
    + case_match; intros [= <- <-]; [right; by apply IH|left].
    + intros [= <- <-]. left.
Qed.

Lemma firstRejection_is_Some {A} (ps : list (nat * Outcome A)) t e :
  (t, Throw e) ∈ ps → is_Some (firstRejection ps).
Proof.
  induction ps as [|[t0 [a|e0]] ps IH]; simpl.
  - by intros ?%elem_of_nil.
  - intros [[=]|Hin]%elem_of_cons. by apply IH.
  - intros _. destruct (firstRejection ps) as [[t' e']|]; [by case_match|done].
Qed.

(** One rejected promise rejects the whole, with the reason of one of the
    rejected promises. *)
Lemma Promise_all_rejects {A} (ps : list (nat * Eff A)) p e :
  p ∈ ps → outcome p.2 = Throw e →
  ∃ p' e', p' ∈ ps ∧ outcome p'.2 = Throw e'
           ∧ outcome (Promise_all ps) = Throw e'.
Proof.
  intros Hin Hthrow. unfold Promise_all. simpl.
  destruct (firstRejection (map (λ p, (p.1, outcome p.2)) ps)) as [[t' e']|] eqn:Hfirst.
  - apply firstRejection_Some, list_elem_of_fmap in Hfirst as (p' & [= -> Hp'] & Hin').
    by exists p', e'.
  - assert (is_Some (firstRejection (map (λ p, (p.1, outcome p.2)) ps))) as [? Hsome].
    { apply (firstRejection_is_Some _ p.1 e), list_elem_of_fmap.
      exists p. by rewrite Hthrow. }
    congruence.
Qed.

(** When every promise is fulfilled the values come back in the order of
    the promises. *)
Lemma Promise_all_fulfils {A} (ps : list (nat * Eff A)) (values : list A) :
  Forall2 (λ p a, outcome p.2 = Return a) ps values →
  outcome (Promise_all ps) = Return values.
Proof.
  intros Hall. unfold Promise_all. simpl.
  assert (map (λ p : nat * Eff A, outcome p.2) ps = map Return values) as Hvalues.
  { induction Hall as [|p a ps values Hp _ IH]; simpl; [done|]. by rewrite Hp, IH. }
  destruct (firstRejection _) as [[t e]|] eqn:Hfirst.
  - apply firstRejection_Some, list_elem_of_fmap in Hfirst as (p & [= -> Hp] & Hin).
    assert (Throw e ∈ map Return values) as Habs.
    { rewrite <-Hvalues, Hp. apply list_elem_of_fmap. by exists p. }
    by apply list_elem_of_fmap in Habs as (? & [=] & _).
  - rewrite Hvalues. f_equal. clear. induction values; simpl; by f_equal.
Qed.

(** ** Launcher roots *)

Lemma launcherAssetsWith_unfold h lookup roots :
  launcherAssetsWith h lookup roots =
    (map FsExistsSync roots
       ++ concat (map (λ root, trace (lookup root)) (List.filter (existsSync h) roots)),
     outcome (Promise_all
                (map (λ root, (settleTime h root, lookup root))
                     (List.filter (existsSync h) roots)))).
Proof.
  unfold launcherAssetsWith, filterExisting. eff_simpl.
  unfold Promise_all. eff_simpl. by rewrite map_map.
Qed.

Lemma launcherAssetsWith_rejects h lookup roots root e :
  root ∈ List.filter (existsSync h) roots →
  outcome (lookup root) = Throw e →
  ∃ root' e',
    root' ∈ List.filter (existsSync h) roots
    ∧ outcome (lookup root') = Throw e'
    ∧ outcome (launcherAssetsWith h lookup roots) = Throw e'.
Proof.
  intros Hroot Hthrow. rewrite launcherAssetsWith_unfold. simpl.
  destruct (Promise_all_rejects
              (map (λ root, (settleTime h root, lookup root))
                   (List.filter (existsSync h) roots))
              (settleTime h root, lookup root) e)
    as (p' & e' & Hin & Hp' & Hall); [|done|].
  { apply list_elem_of_fmap. by exists root. }
  apply list_elem_of_fmap in Hin as (root' & -> & Hroot').
  by exists root', e'.
Qed.

Lemma launcherAssetsWith_fulfils h lookup roots results :
  Forall2 (λ root r, outcome (lookup root) = Return r)
          (List.filter (existsSync h) roots) results →
  outcome (launcherAssetsWith h lookup roots) = Return results.
Proof.
  intros Hall. rewrite launcherAssetsWith_unfold. simpl.
  apply Promise_all_fulfils.
  induction Hall; simpl; by constructor.
Qed.

Lemma launcherAssets_unfold h roots :
  launcherAssets h roots =
    (map FsExistsSync roots
       ++ concat (map (λ root, trace (getAssetsLocation_mcpelauncher h root))
                      (List.filter (existsSync h) roots)),
     outcome (Promise_all
                (map (λ root, (settleTime h root, getAssetsLocation_mcpelauncher h root))
                     (List.filter (existsSync h) roots)))).
Proof. apply launcherAssetsWith_unfold. Qed.

Lemma launcherAssets_rejects h roots root e :
  root ∈ List.filter (existsSync h) roots →
  outcome (getAssetsLocation_mcpelauncher h root) = Throw e →
  ∃ root' e',
    root' ∈ List.filter (existsSync h) roots
    ∧ outcome (getAssetsLocation_mcpelauncher h root') = Throw e'
    ∧ outcome (launcherAssets h roots) = Throw e'.
Proof. apply launcherAssetsWith_rejects. Qed.

Lemma launcherAssets_fulfils h roots results :
  Forall2 (λ root r, outcome (getAssetsLocation_mcpelauncher h root) = Return r)
          (List.filter (existsSync h) roots) results →
  outcome (launcherAssets h roots) = Return results.
Proof. apply launcherAssetsWith_fulfils. Qed.

(** C4: the launcher platforms filter their roots and run one lookup per
    surviving root under [Promise.all].  Whatever the lookup, one surviving
    root whose lookup fails makes the whole call fail, with the error of a
    failed lookup and before any asset path is checked; and when every
    lookup succeeds the per-root results are returned in the order of the
    root candidates and handed to [checkExists] as they are.  The code runs
    this with [getAssetsLocation_mcpelauncher]; Linux has the two roots. *)
Theorem launcher_roots_fail_fast (h : Host) :
  (∀ roots root e,
      root ∈ List.filter (existsSync h) roots →
      outcome (getAssetsLocation_mcpelauncher h root) = Throw e →
      ∃ root' e',
        root' ∈ List.filter (existsSync h) roots
        ∧ outcome (getAssetsLocation_mcpelauncher h root') = Throw e'
        ∧ outcome (launcherAssets h roots) = Throw e'
        ∧ outcome (let* paths := launcherAssets h roots in checkExists h paths) = Throw e')
  ∧ (∀ lookup roots root e,
      root ∈ List.filter (existsSync h) roots →
      outcome (lookup root) = Throw e →
      ∃ root' e',
        root' ∈ List.filter (existsSync h) roots
        ∧ outcome (lookup root') = Throw e'
        ∧ outcome (launcherAssetsWith h lookup roots) = Throw e'
        ∧ outcome (let* paths := launcherAssetsWith h lookup roots in checkExists h paths)
          = Throw e')
  ∧ (∀ lookup roots results,
      Forall2 (λ root r, outcome (lookup root) = Return r)
              (List.filter (existsSync h) roots) results →
      outcome (launcherAssetsWith h lookup roots) = Return results
      ∧ outcome (let* paths := launcherAssetsWith h lookup roots in checkExists h paths)
        = outcome (checkExists h results))
  ∧ (∀ roots,
      launcherAssets h roots = launcherAssetsWith h (getAssetsLocation_mcpelauncher h) roots)
  ∧ (platform h = "linux" →
      getAssetsLocations h =
        let* paths :=
          launcherAssets h
            [ path_join h [homedir h; ".local/share/mcpelauncher"];
              path_join h [homedir h; ".var/app/io.mrarm.mcpelauncher/data/mcpelauncher"] ]
        in checkExists h paths)
  ∧ (platform h = "linux" →
      ∀ root e,
        root ∈ List.filter (existsSync h) (launcherRoots_Linux h) →
        outcome (getAssetsLocation_mcpelauncher h root) = Throw e →
        ∃ e', outcome (getAssetsLocations h) = Throw e')
  ∧ (platform h = "darwin" →
      getAssetsLocations h =
        let* paths :=
          launcherAssets h
            [ path_join h [homedir h; "Library/Application Support/mcpelauncher/"] ]
        in checkExists h paths).
Proof.
  split_and!.
  - intros roots root e Hroot Hthrow.
    destruct (launcherAssets_rejects h roots root e Hroot Hthrow)
      as (root' & e' & Hroot' & Hthrow' & Hall).
    exists root', e'. split_and!; [done..|].
    by apply outcome_bind_Throw.
  - intros lookup roots root e Hroot Hthrow.
    destruct (launcherAssetsWith_rejects h lookup roots root e Hroot Hthrow)
      as (root' & e' & Hroot' & Hthrow' & Hall).
    exists root', e'. split_and!; [done..|].
    by apply outcome_bind_Throw.
  - intros lookup roots results Hall.
    pose proof (launcherAssetsWith_fulfils h lookup roots results Hall) as Hreturn.
    split; [done|]. by apply outcome_bind_Return.
  - done.
  - intros Hos. unfold getAssetsLocations. cbv zeta. by rewrite Hos.
  - intros Hos root e Hroot Hthrow.
    destruct (launcherAssets_rejects h _ root e Hroot Hthrow) as (_ & e' & _ & _ & Hall).
    exists e'. unfold getAssetsLocations. cbv zeta. rewrite Hos.
    cbn [String.eqb Ascii.eqb Bool.eqb]. by apply outcome_bind_Throw.
  - intros Hos. unfold getAssetsLocations. cbv zeta. by rewrite Hos.
Qed.

Lemma launcher_roots_fail_fast_witness :
  (∃ root' e',
      root' ∈ List.filter (existsSync LinuxSample.twoRoots)
                [LinuxSample.rootA; LinuxSample.rootB]
      ∧ outcome (getAssetsLocation_mcpelauncher LinuxSample.twoRoots root') = Throw e'
      ∧ outcome (launcherAssets LinuxSample.twoRoots
                   [LinuxSample.rootA; LinuxSample.rootB]) = Throw e'
      ∧ outcome (let* paths := launcherAssets LinuxSample.twoRoots
                                 [LinuxSample.rootA; LinuxSample.rootB]
                 in checkExists LinuxSample.twoRoots paths) = Throw e')
  ∧ (∃ root' e',
      root' ∈ List.filter (existsSync LinuxSample.twoRoots)
                [LinuxSample.rootA; LinuxSample.rootB]
      ∧ outcome (LinuxSample.lookupLines LinuxSample.twoRoots root') = Throw e'
      ∧ outcome (launcherAssetsWith LinuxSample.twoRoots
                   (LinuxSample.lookupLines LinuxSample.twoRoots)
                   [LinuxSample.rootA; LinuxSample.rootB]) = Throw e'
      ∧ outcome (let* paths := launcherAssetsWith LinuxSample.twoRoots
                                 (LinuxSample.lookupLines LinuxSample.twoRoots)
                                 [LinuxSample.rootA; LinuxSample.rootB]
                 in checkExists LinuxSample.twoRoots paths) = Throw e')
  ∧ (outcome (launcherAssetsWith LinuxSample.twoVersions
                (LinuxSample.lookupLines LinuxSample.twoVersions)
                [LinuxSample.rootA; LinuxSample.rootB])
     = Return [ LinuxSample.rootA +:+ "/versions/foo/assets";
                LinuxSample.rootB +:+ "/versions/bar/assets" ]
     ∧ outcome (let* paths := launcherAssetsWith LinuxSample.twoVersions
                                (LinuxSample.lookupLines LinuxSample.twoVersions)
                                [LinuxSample.rootA; LinuxSample.rootB]
                in checkExists LinuxSample.twoVersions paths)
       = outcome (checkExists LinuxSample.twoVersions
                    [ LinuxSample.rootA +:+ "/versions/foo/assets";
                      LinuxSample.rootB +:+ "/versions/bar/assets" ]))
  ∧ ∃ e', outcome (getAssetsLocations LinuxSample.twoRoots) = Throw e'.
Proof.
  destruct (launcher_roots_fail_fast LinuxSample.twoRoots)
    as (Hfail & Hfail_any & _ & _ & _ & Hlinux & _).
  destruct (launcher_roots_fail_fast LinuxSample.twoVersions) as (_ & _ & Hordered & _).
  split; [|split; [|split]].
  - apply (Hfail [LinuxSample.rootA; LinuxSample.rootB] LinuxSample.rootA
             (newError (Msg.iniUnreadable
                          (Some "/home/steve/.local/share/mcpelauncher/versions/versions.ini")
                          (Some "ENOENT")))).
    + vm_compute. left.
    + vm_compute. reflexivity.
  - apply (Hfail_any (LinuxSample.lookupLines LinuxSample.twoRoots)
             [LinuxSample.rootA; LinuxSample.rootB] LinuxSample.rootA
             (newError (Msg.iniUnreadable
                          (Some "/home/steve/.local/share/mcpelauncher/versions/versions.ini")
                          (Some "ENOENT")))).
    + vm_compute. left.
    + vm_compute. reflexivity.
  - apply (Hordered (LinuxSample.lookupLines LinuxSample.twoVersions)
             [LinuxSample.rootA; LinuxSample.rootB]
             [ LinuxSample.rootA +:+ "/versions/foo/assets";
               LinuxSample.rootB +:+ "/versions/bar/assets" ]).
    assert (List.filter (existsSync LinuxSample.twoVersions)
              [LinuxSample.rootA; LinuxSample.rootB]
            = [LinuxSample.rootA; LinuxSample.rootB]) as -> by (vm_compute; reflexivity).
    apply Forall2_cons; [vm_compute; reflexivity|].
    apply Forall2_cons; [vm_compute; reflexivity|].
    apply Forall2_nil.
  - apply (Hlinux eq_refl LinuxSample.rootB
             (newError (Msg.noValidVersion
                          (LinuxSample.rootB +:+ "/versions/versions.ini")))).
    + vm_compute. right. left.
    + vm_compute. reflexivity.
Defined.

(** With the lookup that reads the lines, the root without a versions file
    fails the call although the other root alone would give its path. *)
Example one_root_fails_the_other :
  outcome (LinuxSample.lookupLines LinuxSample.twoRoots LinuxSample.rootB)
  = Return (LinuxSample.rootB +:+ "/versions/foo/assets")
  ∧ outcome (launcherAssetsWith LinuxSample.twoRoots
               (LinuxSample.lookupLines LinuxSample.twoRoots)
               [LinuxSample.rootA; LinuxSample.rootB])
    = Throw (newError (Msg.iniUnreadable
                         (Some (LinuxSample.rootA +:+ "/versions/versions.ini"))
                         (Some "ENOENT"))).
Proof. by vm_compute. Qed.

(** On the two-root host the whole resolution fails although the second
    root has a versions file; both files were asked for. *)
Example linux_two_roots :
  getAssetsLocations LinuxSample.twoRoots =
    ([ FsExistsSync LinuxSample.rootA; FsExistsSync LinuxSample.rootB;
       FsReadFile (LinuxSample.rootA +:+ "/versions/versions.ini");
       FsReadFile (LinuxSample.rootB +:+ "/versions/versions.ini") ],
     Throw (newError (Msg.iniUnreadable
                        (Some (LinuxSample.rootA +:+ "/versions/versions.ini"))
                        (Some "ENOENT")))).
Proof. by vm_compute. Qed.

(** A consequence of the reader's misreading: on the launcher platforms the
    asset resolver never returns.  Either no launcher root exists, and
    [checkExists] throws on the empty list, or the lookup for an existing
    root throws. *)
Theorem launcher_assets_never_resolve (h : Host) :
  platform h = "darwin" ∨ platform h = "linux" →
  ∃ e, outcome (getAssetsLocations h) = Throw e.
Proof.
  assert (∀ roots, ∃ e,
            outcome (let* paths := launcherAssets h roots in checkExists h paths) = Throw e)
    as Hroots.
  { intros roots.
    destruct (List.filter (existsSync h) roots) as [|root existing] eqn:Hfilter.
    - exists (newError Msg.noLocation).
      rewrite (outcome_bind_Return _ _ []).
      + by rewrite checkExists_unfold.
      + apply launcherAssets_fulfils. rewrite Hfilter. constructor.
    - destruct (getAssetsLocation_mcpelauncher_throws h root) as [e He].
      destruct (launcherAssets_rejects h roots root e) as (_ & e' & _ & _ & Hall);
        [rewrite Hfilter; left|done|].
      exists e'. by apply outcome_bind_Throw. }
  intros [Hos|Hos]; unfold getAssetsLocations; cbv zeta; rewrite Hos;
    cbn [String.eqb Ascii.eqb Bool.eqb]; apply Hroots.
Qed.

(** ** Platform dispatch *)

(** Decide the first platform test of a [switch]; [tac] closes the case in
    which the platform is the tested one. *)
Ltac platform_case tac :=
  match goal with
  | |- context [String.eqb (platform ?h) ?name] =>
      let Heq := fresh "Heq" in
      destruct (String.eqb_spec (platform h) name) as [Heq|Heq]; [tac Heq|]
  end.

(** C6: on a platform outside a resolver's supported set the resolver
    throws at once, with an empty trace (no file-system access, no
    process), and the message names the platform and lists the supported
    ones. *)
Theorem unsupported_platform (h : Host) :
  (platform h ∉ ["win32"; "darwin"; "linux"; "android"] →
     getDataLocations h =
       ([], Throw (newError
          ("Could not determine the location of Bedrock's data files. The current platform ("
           +:+ platform h
           +:+ ") is not supported. Supported platforms: win32 (Windows), darwin (MacOS), linux, android"))))
  ∧ (platform h ∉ ["win32"; "darwin"; "linux"] →
     getAssetsLocations h =
       ([], Throw (newError
          ("Could not determine the location of Bedrock's asset files. The current platform ("
           +:+ platform h
           +:+ ") is not supported. Supported platforms: win32 (Windows), darwin (MacOS), linux")))).
Proof.
  split; intros Hos.
  - unfold getDataLocations. cbv zeta.
    repeat platform_case ltac:(fun Heq =>
      exfalso; apply Hos; rewrite Heq; apply list_elem_of_In; simpl; tauto).
    reflexivity.
  - unfold getAssetsLocations. cbv zeta.
    repeat platform_case ltac:(fun Heq =>
      exfalso; apply Hos; rewrite Heq; apply list_elem_of_In; simpl; tauto).
    reflexivity.
Qed.

Lemma unsupported_platform_witness :
  getDataLocations (Sample.posix "freebsd" ["/sdcard/games/com.mojang"] []) =
    ([], Throw (newError
       "Could not determine the location of Bedrock's data files. The current platform (freebsd) is not supported. Supported platforms: win32 (Windows), darwin (MacOS), linux, android"))
  ∧ getAssetsLocations (Sample.posix "freebsd" ["/sdcard/games/com.mojang"] []) =
    ([], Throw (newError
       "Could not determine the location of Bedrock's asset files. The current platform (freebsd) is not supported. Supported platforms: win32 (Windows), darwin (MacOS), linux")).
Proof.
  destruct (unsupported_platform (Sample.posix "freebsd" ["/sdcard/games/com.mojang"] []))
    as [Hdata Hassets].
  split.
  - apply Hdata. apply (bool_decide_unpack _). vm_compute. exact I.
  - apply Hassets. apply (bool_decide_unpack _). vm_compute. exact I.
Defined.

(** C10: on ["android"] the data resolver is supported and checks its two
    fixed absolute candidates, while the asset resolver throws the
    unsupported-platform error without touching the file system. *)
Theorem android_data_only (h : Host) :
  platform h = "android" →
  getDataLocations h =
    ([ FsExistsSync "/data/data/com.mojang.minecraftpe/games/com.mojang";
       FsExistsSync "/sdcard/games/com.mojang" ],
     match List.filter (existsSync h)
             [ "/data/data/com.mojang.minecraftpe/games/com.mojang";
               "/sdcard/games/com.mojang" ] with
     | [] => Throw (newError Msg.noLocation)
     | existing => Return existing
     end)
  ∧ getAssetsLocations h =
    ([], Throw (newError
       "Could not determine the location of Bedrock's asset files. The current platform (android) is not supported. Supported platforms: win32 (Windows), darwin (MacOS), linux")).
Proof.
  intros Hos. split.
  - unfold getDataLocations. cbv zeta. rewrite Hos. cbn [String.eqb Ascii.eqb Bool.eqb].
    apply checkExists_unfold.
  - unfold getAssetsLocations. cbv zeta. by rewrite Hos.
Qed.

Lemma android_data_only_witness :
  getDataLocations (Sample.posix "android" ["/sdcard/games/com.mojang"] []) =
    ([ FsExistsSync "/data/data/com.mojang.minecraftpe/games/com.mojang";
       FsExistsSync "/sdcard/games/com.mojang" ],
     Return ["/sdcard/games/com.mojang"])
  ∧ getAssetsLocations (Sample.posix "android" ["/sdcard/games/com.mojang"] []) =
    ([], Throw (newError
       "Could not determine the location of Bedrock's asset files. The current platform (android) is not supported. Supported platforms: win32 (Windows), darwin (MacOS), linux")).
Proof.
  exact (android_data_only (Sample.posix "android" ["/sdcard/games/com.mojang"] []) eq_refl).
Defined.

(** C8 (as amended): on ["win32"] the data resolver throws the
    missing-variable error, with an empty trace, when [LOCALAPPDATA] is
    absent or empty; when it is set to a non-empty value the single
    candidate is that value joined with the store-package path. *)
Theorem windows_data_location (h : Host) :
  platform h = "win32" →
  (env h "LOCALAPPDATA" = None ∨ env h "LOCALAPPDATA" = Some "" →
     getDataLocations h =
       ([], Throw (newError
          "Could not determine the location of Bedrock's data files. The LOCALAPPDATA environment variable is missing.")))
  ∧ (∀ value,
       env h "LOCALAPPDATA" = Some value → value ≠ "" →
       getDataLocations_Windows h =
         ret [ path_join h
                 [ value;
                   "Packages/Microsoft.MinecraftUWP_8wekyb3d8bbwe/LocalState/games/com.mojang" ] ]
       ∧ getDataLocations h =
         checkExists h
           [ path_join h
               [ value;
                 "Packages/Microsoft.MinecraftUWP_8wekyb3d8bbwe/LocalState/games/com.mojang" ] ]).
Proof.
  intros Hos. split.
  - intros Hmissing. unfold getDataLocations, getDataLocations_Windows. cbv zeta.
    rewrite Hos. by destruct Hmissing as [-> | ->].
  - intros value Hvalue Hne.
    assert (getDataLocations_Windows h =
            ret [ path_join h
                    [ value;
                      "Packages/Microsoft.MinecraftUWP_8wekyb3d8bbwe/LocalState/games/com.mojang" ] ])
      as Hcandidates.
    { unfold getDataLocations_Windows. rewrite Hvalue. simpl.
      by apply String.eqb_neq in Hne as ->. }
    split; [done|].
    unfold getDataLocations. cbv zeta. rewrite Hos, Hcandidates.
    cbn [String.eqb Ascii.eqb Bool.eqb]. unfold ret, bind.
    by destruct (checkExists h _).
Qed.

Lemma windows_data_location_witness :
  getDataLocations WindowsSample.bare =
    ([], Throw (newError
       "Could not determine the location of Bedrock's data files. The LOCALAPPDATA environment variable is missing."))
  ∧ getDataLocations_Windows WindowsSample.installed =
      ret [ path_join WindowsSample.installed
              [ WindowsSample.localAppData;
                "Packages/Microsoft.MinecraftUWP_8wekyb3d8bbwe/LocalState/games/com.mojang" ] ]
  ∧ getDataLocations WindowsSample.installed =
      checkExists WindowsSample.installed
        [ path_join WindowsSample.installed
            [ WindowsSample.localAppData;
              "Packages/Microsoft.MinecraftUWP_8wekyb3d8bbwe/LocalState/games/com.mojang" ] ].
Proof.
  destruct (windows_data_location WindowsSample.bare eq_refl) as [Hmissing _].
  destruct (windows_data_location WindowsSample.installed eq_refl) as [_ Hpresent].
  split.
  - apply Hmissing. left. reflexivity.
  - apply (Hpresent WindowsSample.localAppData).
    + reflexivity.
    + vm_compute. discriminate.
Defined.

Example windows_data_installed :
  getDataLocations WindowsSample.installed =
    ([FsExistsSync WindowsSample.dataPath], Return [WindowsSample.dataPath]).
Proof. by vm_compute. Qed.

(** C8 (as stated) fails: with [LOCALAPPDATA] present but empty there is no
    candidate; the resolver throws the missing-variable error. *)
Lemma present_but_empty_LOCALAPPDATA :
  platform WindowsSample.emptyAppData = "win32"
  ∧ env WindowsSample.emptyAppData "LOCALAPPDATA" = Some ""
  ∧ getDataLocations WindowsSample.emptyAppData =
      ([], Throw (newError Msg.missingLocalAppData))
  ∧ getDataLocations_Windows WindowsSample.emptyAppData ≠
      ret [ path_join WindowsSample.emptyAppData
              [ "";
                "Packages/Microsoft.MinecraftUWP_8wekyb3d8bbwe/LocalState/games/com.mojang" ] ].
Proof. by vm_compute. Qed.

Lemma GetAppxPackage_unfold h name :
  Appx.GetAppxPackage h name =
    ([ExecFile "powershell.exe" (Appx.queryArgs name)],
     let r := execFile h "powershell.exe" (Appx.queryArgs name) Appx.queryOptions in
     match execError r with
     | Some error => Throw error
     | None =>
         if negb (String.eqb (stderr r) "") then Throw (newError (stderr r))
         else match JSON_parse h (stdout r) with
              | inr v => Return v
              | inl e => Throw e
              end
     end).
Proof.
  unfold Appx.GetAppxPackage. cbv zeta. eff_simpl.
  destruct (execError _); [done|].
  destruct (negb _); [done|]. by destruct (JSON_parse _ _).
Qed.

Lemma getAssetsLocations_Windows_rejected h e :
  outcome (Appx.GetAppxPackage h "Microsoft.MinecraftUWP") = Throw e →
  getAssetsLocations_Windows h =
    ([ExecFile "powershell.exe" (Appx.queryArgs "Microsoft.MinecraftUWP")],
     Throw (newError (Msg.packageQuery (message e)))).
Proof.
  rewrite GetAppxPackage_unfold. unfold getAssetsLocations_Windows.
  rewrite GetAppxPackage_unfold. cbv zeta. simpl. by intros ->.
Qed.

Lemma getAssetsLocations_Windows_located h props location :
  outcome (Appx.GetAppxPackage h "Microsoft.MinecraftUWP") = Return (JObj props) →
  JSMap.get props "InstallLocation" = Some (JStr location) →
  getAssetsLocations_Windows h =
    ([ExecFile "powershell.exe" (Appx.queryArgs "Microsoft.MinecraftUWP")],
     Return [path_join h [location; "data"]]).
Proof.
  rewrite GetAppxPackage_unfold. unfold getAssetsLocations_Windows.
  rewrite GetAppxPackage_unfold. cbv zeta. simpl. intros -> Hlocation.
  unfold installLocationOf. eff_simpl. by rewrite Hlocation.
Qed.

(** C9: every failure of the package query (the process error or timeout
    reported by [execFile], output on the standard error, a standard output
    that [JSON.parse] rejects) makes the Windows asset resolution throw an
    error whose message is the fixed context followed by the message of the
    underlying error; when the query returns an object that reports an
    install location, the single candidate is that location joined with
    ["data"]. *)
Theorem windows_assets_query (h : Host) :
  (∀ e,
      outcome (Appx.GetAppxPackage h "Microsoft.MinecraftUWP") = Throw e →
      outcome (getAssetsLocations_Windows h) =
        Throw (newError
          ("Could not determine the location of Bedrock's asset files. The package details command returned the following error:"
           +:+ JS.nl +:+ message e))
      ∧ (platform h = "win32" →
         outcome (getAssetsLocations h) = outcome (getAssetsLocations_Windows h)))
  ∧ (∀ error,
      execError (execFile h "powershell.exe"
                   (Appx.queryArgs "Microsoft.MinecraftUWP") Appx.queryOptions)
        = Some error →
      outcome (Appx.GetAppxPackage h "Microsoft.MinecraftUWP") = Throw error)
  ∧ (execError (execFile h "powershell.exe"
                  (Appx.queryArgs "Microsoft.MinecraftUWP") Appx.queryOptions) = None →
     stderr (execFile h "powershell.exe"
               (Appx.queryArgs "Microsoft.MinecraftUWP") Appx.queryOptions) ≠ "" →
     outcome (Appx.GetAppxPackage h "Microsoft.MinecraftUWP") =
       Throw (newError
                (stderr (execFile h "powershell.exe"
                           (Appx.queryArgs "Microsoft.MinecraftUWP") Appx.queryOptions))))
  ∧ (∀ e,
      execError (execFile h "powershell.exe"
                   (Appx.queryArgs "Microsoft.MinecraftUWP") Appx.queryOptions) = None →
      stderr (execFile h "powershell.exe"
                (Appx.queryArgs "Microsoft.MinecraftUWP") Appx.queryOptions) = "" →
      JSON_parse h
        (stdout (execFile h "powershell.exe"
                   (Appx.queryArgs "Microsoft.MinecraftUWP") Appx.queryOptions)) = inl e →
      outcome (Appx.GetAppxPackage h "Microsoft.MinecraftUWP") = Throw e)
  ∧ (∀ props location,
      outcome (Appx.GetAppxPackage h "Microsoft.MinecraftUWP") = Return (JObj props) →
      JSMap.get props "InstallLocation" = Some (JStr location) →
      outcome (getAssetsLocations_Windows h) = Return [path_join h [location; "data"]]
      ∧ (platform h = "win32" →
         outcome (getAssetsLocations h)
         = outcome (checkExists h [path_join h [location; "data"]]))).
Proof.
  split_and!.
  - intros e Hthrow. rewrite (getAssetsLocations_Windows_rejected _ _ Hthrow).
    split; [done|]. intros Hos. unfold getAssetsLocations. cbv zeta.
    rewrite Hos, (getAssetsLocations_Windows_rejected _ _ Hthrow). done.
  - intros error Herror. rewrite GetAppxPackage_unfold. simpl. by rewrite Herror.
  - intros Herror Hstderr. rewrite GetAppxPackage_unfold. simpl. rewrite Herror.
    by apply String.eqb_neq in Hstderr as ->.
  - intros e Herror Hstderr Hparse. rewrite GetAppxPackage_unfold. simpl.
    by rewrite Herror, Hstderr, Hparse.
  - intros props location Hquery Hlocation.
    rewrite (getAssetsLocations_Windows_located _ _ _ Hquery Hlocation).
    split; [done|]. intros Hos. unfold getAssetsLocations. cbv zeta.
    rewrite Hos, (getAssetsLocations_Windows_located _ _ _ Hquery Hlocation).
    cbn [String.eqb Ascii.eqb Bool.eqb]. unfold bind.
    by destruct (checkExists h _).
Qed.

Lemma windows_assets_query_witness :
  outcome (getAssetsLocations_Windows WindowsSample.bare) =
    Throw (newError
      ("Could not determine the location of Bedrock's asset files. The package details command returned the following error:"
       +:+ JS.nl +:+ "Command failed: powershell.exe"))
  ∧ outcome (Appx.GetAppxPackage WindowsSample.complaining "Microsoft.MinecraftUWP") =
      Throw (newError "Get-AppxPackage : Access is denied.")
  ∧ outcome (Appx.GetAppxPackage WindowsSample.silent "Microsoft.MinecraftUWP") =
      Throw Sample.syntaxError
  ∧ outcome (getAssetsLocations_Windows WindowsSample.installed) =
      Return [path_join WindowsSample.installed ["C:\Apps\Minecraft"; "data"]].
Proof.
  destruct (windows_assets_query WindowsSample.bare) as (Hwrap & Herror & _).
  destruct (windows_assets_query WindowsSample.complaining) as (_ & _ & Hstderr & _).
  destruct (windows_assets_query WindowsSample.silent) as (_ & _ & _ & Hparse & _).
  destruct (windows_assets_query WindowsSample.installed) as (_ & _ & _ & _ & Hok).
  split_and!.
  - exact (proj1 (Hwrap (newError "Command failed: powershell.exe")
                     (Herror (newError "Command failed: powershell.exe") eq_refl))).
  - apply Hstderr; [reflexivity|]. vm_compute. discriminate.
  - apply (Hparse Sample.syntaxError); reflexivity.
  - exact (proj1 (Hok [("InstallLocation", JStr "C:\Apps\Minecraft")] "C:\Apps\Minecraft"
                     eq_refl eq_refl)).
Defined.

Example windows_assets_samples :
  getAssetsLocations WindowsSample.installed =
    ([ ExecFile "powershell.exe" (Appx.queryArgs "Microsoft.MinecraftUWP");
       FsExistsSync "C:\Apps\Minecraft\data" ],
     Return ["C:\Apps\Minecraft\data"])
  ∧ outcome (getAssetsLocations WindowsSample.complaining) =
    Throw (newError (Msg.packageQuery "Get-AppxPackage : Access is denied."))
  ∧ outcome (getAssetsLocations WindowsSample.silent) =
    Throw (newError (Msg.packageQuery "Unexpected end of JSON input")).
Proof. by vm_compute. Qed.

(** ** Never an empty result *)

Lemma bind_ret {A B} (a : A) (k : A → Eff B) : (let* x := ret a in k x) = k a.
Proof. unfold bind, ret. by destruct (k a). Qed.

(** The data resolver is [checkExists] on the platform's candidates. *)
Lemma getDataLocations_candidates h candidates :
  (platform h = "win32"
   ∧ ∃ value, env h "LOCALAPPDATA" = Some value ∧ value ≠ ""
       ∧ candidates =
           [ path_join h
               [ value;
                 "Packages/Microsoft.MinecraftUWP_8wekyb3d8bbwe/LocalState/games/com.mojang" ] ])
  ∨ (platform h = "darwin"
     ∧ candidates =
         [ path_join h
             [homedir h; "Library/Application Support/mcpelauncher/games/com.mojang"] ])
  ∨ (platform h = "linux"
     ∧ candidates =
         [ path_join h [homedir h; ".local/share/mcpelauncher/games/com.mojang"];
           path_join h
             [ homedir h;
               ".var/app/io.mrarm.mcpelauncher/data/mcpelauncher/games/com.mojang" ] ])
  ∨ (platform h = "android"
     ∧ candidates =
         [ "/data/data/com.mojang.minecraftpe/games/com.mojang";
           "/sdcard/games/com.mojang" ]) →
  getDataLocations h = checkExists h candidates.
Proof.
  unfold getDataLocations. cbv zeta.
  intros [[Hos (value & Hvalue & Hne & ->)]|[[Hos ->]|[[Hos ->]|[Hos ->]]]];
    rewrite Hos; cbn [String.eqb Ascii.eqb Bool.eqb]; [|done..].
  unfold getDataLocations_Windows. rewrite Hvalue. cbn [JS.truthy JS.interp].
  apply String.eqb_neq in Hne as ->. cbn [negb]. apply bind_ret.
Qed.

(** The asset resolver is [checkExists] on what the platform's function
    returns. *)
Lemma getAssetsLocations_candidates h candidates :
  (platform h = "win32" ∧ outcome (getAssetsLocations_Windows h) = Return candidates)
  ∨ (platform h = "darwin" ∧ outcome (getAssetsLocations_MacOS h) = Return candidates)
  ∨ (platform h = "linux" ∧ outcome (getAssetsLocations_Linux h) = Return candidates) →
  outcome (getAssetsLocations h) = outcome (checkExists h candidates).
Proof.
  unfold getAssetsLocations. cbv zeta.
  intros [[Hos Hreturn]|[[Hos Hreturn]|[Hos Hreturn]]];
    rewrite Hos; cbn [String.eqb Ascii.eqb Bool.eqb];
    by apply outcome_bind_Return.
Qed.

Lemma launcherAssets_without_roots h roots :
  Forall (λ p, existsSync h p = false) roots →
  outcome (launcherAssets h roots) = Return [].
Proof.
  intros Hnone. apply launcherAssets_fulfils.
  rewrite (filter_existing_none _ _ Hnone). constructor.
Qed.

(** C2: a resolver that returns, returns a non-empty list of existing
    paths.  Each resolver is [checkExists] applied to its platform's
    candidates, and [checkExists] turns candidates of which none exists
    into the "could not determine the location" error: so whenever the
    platform's candidates are produced and none of them exists on disk,
    whatever else exists, the call throws that error.  On the launcher
    platforms no existing launcher root means no candidate. *)
Theorem resolvers_never_empty (h : Host) :
  (∀ existing,
      outcome (getDataLocations h) = Return existing →
      existing ≠ [] ∧ Forall (λ p, existsSync h p = true) existing)
  ∧ (∀ existing,
      outcome (getAssetsLocations h) = Return existing →
      existing ≠ [] ∧ Forall (λ p, existsSync h p = true) existing)
  ∧ (∀ candidates,
      Forall (λ p, existsSync h p = false) candidates →
      outcome (checkExists h candidates) =
        Throw (newError
          "Could not determine the location of Bedrock's data files. The game is not installed or is installed in an unsupported location."))
  ∧ (∀ candidates,
      (platform h = "win32"
       ∧ ∃ value, env h "LOCALAPPDATA" = Some value ∧ value ≠ ""
           ∧ candidates =
               [ path_join h
                   [ value;
                     "Packages/Microsoft.MinecraftUWP_8wekyb3d8bbwe/LocalState/games/com.mojang" ] ])
      ∨ (platform h = "darwin"
         ∧ candidates =
             [ path_join h
                 [homedir h; "Library/Application Support/mcpelauncher/games/com.mojang"] ])
      ∨ (platform h = "linux"
         ∧ candidates =
             [ path_join h [homedir h; ".local/share/mcpelauncher/games/com.mojang"];
               path_join h
                 [ homedir h;
                   ".var/app/io.mrarm.mcpelauncher/data/mcpelauncher/games/com.mojang" ] ])
      ∨ (platform h = "android"
         ∧ candidates =
             [ "/data/data/com.mojang.minecraftpe/games/com.mojang";
               "/sdcard/games/com.mojang" ]) →
      getDataLocations h = checkExists h candidates
      ∧ (Forall (λ p, existsSync h p = false) candidates →
         outcome (getDataLocations h) =
           Throw (newError
             "Could not determine the location of Bedrock's data files. The game is not installed or is installed in an unsupported location.")))
  ∧ (∀ candidates,
      (platform h = "win32" ∧ outcome (getAssetsLocations_Windows h) = Return candidates)
      ∨ (platform h = "darwin" ∧ outcome (getAssetsLocations_MacOS h) = Return candidates)
      ∨ (platform h = "linux" ∧ outcome (getAssetsLocations_Linux h) = Return candidates) →
      outcome (getAssetsLocations h) = outcome (checkExists h candidates)
      ∧ (Forall (λ p, existsSync h p = false) candidates →
         outcome (getAssetsLocations h) =
           Throw (newError
             "Could not determine the location of Bedrock's data files. The game is not installed or is installed in an unsupported location.")))
  ∧ ((platform h = "darwin"
      ∧ existsSync h
          (path_join h [homedir h; "Library/Application Support/mcpelauncher/"]) = false)
     ∨ (platform h = "linux"
        ∧ existsSync h (path_join h [homedir h; ".local/share/mcpelauncher"]) = false
        ∧ existsSync h
            (path_join h [homedir h; ".var/app/io.mrarm.mcpelauncher/data/mcpelauncher"])
          = false) →
     outcome (getAssetsLocations h) =
       Throw (newError
         "Could not determine the location of Bedrock's data files. The game is not installed or is installed in an unsupported location."))
  ∧ (platform h = "win32" →
     ∀ props location,
       outcome (Appx.GetAppxPackage h "Microsoft.MinecraftUWP") = Return (JObj props) →
       JSMap.get props "InstallLocation" = Some (JStr location) →
       existsSync h (path_join h [location; "data"]) = false →
       outcome (getAssetsLocations h) =
         Throw (newError
           "Could not determine the location of Bedrock's data files. The game is not installed or is installed in an unsupported location."))
  ∧ ((∀ p, existsSync h p = false) →
      (∃ e, outcome (getDataLocations h) = Throw e)
      ∧ (∃ e, outcome (getAssetsLocations h) = Throw e)).
Proof.
  split_and!.
  - apply getDataLocations_Return.
  - apply getAssetsLocations_Return.
  - apply checkExists_none.
  - intros candidates Hcandidates.
    rewrite (getDataLocations_candidates _ _ Hcandidates).
    split; [done|]. apply checkExists_none.
  - intros candidates Hcandidates.
    rewrite (getAssetsLocations_candidates _ _ Hcandidates).
    split; [done|]. apply checkExists_none.
  - intros [[Hos Hroot]|(Hos & HrootA & HrootB)].
    + rewrite (getAssetsLocations_candidates h []).
      * by apply checkExists_none.
      * right. left. split; [done|].
        apply launcherAssets_without_roots. by repeat constructor.
    + rewrite (getAssetsLocations_candidates h []).
      * by apply checkExists_none.
      * right. right. split; [done|].
        apply launcherAssets_without_roots. by repeat constructor.
  - intros Hos props location Hquery Hlocation Habsent.
    rewrite (getAssetsLocations_candidates h [path_join h [location; "data"]]).
    + apply checkExists_none. by repeat constructor.
    + left. split; [done|].
      by rewrite (getAssetsLocations_Windows_located _ _ _ Hquery Hlocation).
  - intros Hnone. split.
    + destruct (outcome (getDataLocations h)) as [[|p existing]|e] eqn:Hout; [| |by eexists].
      * by apply getDataLocations_Return in Hout as [? _].
      * apply getDataLocations_Return in Hout as [_ Hall].
        apply list.Forall_cons in Hall as [Hp _]. by rewrite Hnone in Hp.
    + destruct (outcome (getAssetsLocations h)) as [[|p existing]|e] eqn:Hout; [| |by eexists].
      * by apply getAssetsLocations_Return in Hout as [? _].
      * apply getAssetsLocations_Return in Hout as [_ Hall].
        apply list.Forall_cons in Hall as [Hp _]. by rewrite Hnone in Hp.
Qed.

Lemma resolvers_never_empty_witness :
  ([WindowsSample.dataPath] ≠ []
   ∧ Forall (λ p, existsSync WindowsSample.installed p = true) [WindowsSample.dataPath])
  ∧ (["C:\Apps\Minecraft\data"] ≠ []
     ∧ Forall (λ p, existsSync WindowsSample.installed p = true) ["C:\Apps\Minecraft\data"])
  ∧ outcome (checkExists OtherPaths.linux ["/sdcard/games/com.mojang"])
    = Throw (newError
        "Could not determine the location of Bedrock's data files. The game is not installed or is installed in an unsupported location.")
  ∧ outcome (getDataLocations OtherPaths.linux)
    = Throw (newError
        "Could not determine the location of Bedrock's data files. The game is not installed or is installed in an unsupported location.")
  ∧ outcome (getAssetsLocations OtherPaths.linux)
    = Throw (newError
        "Could not determine the location of Bedrock's data files. The game is not installed or is installed in an unsupported location.")
  ∧ outcome (getDataLocations OtherPaths.windows)
    = Throw (newError
        "Could not determine the location of Bedrock's data files. The game is not installed or is installed in an unsupported location.")
  ∧ outcome (getAssetsLocations OtherPaths.windows)
    = Throw (newError
        "Could not determine the location of Bedrock's data files. The game is not installed or is installed in an unsupported location.")
  ∧ outcome (getAssetsLocations WindowsSample.installed)
    = outcome (checkExists WindowsSample.installed ["C:\Apps\Minecraft\data"])
  ∧ (∃ e, outcome (getDataLocations EmptyDisk.linux) = Throw e)
  ∧ (∃ e, outcome (getAssetsLocations EmptyDisk.linux) = Throw e).
Proof.
  destruct (resolvers_never_empty WindowsSample.installed)
    as (Hdata & Hassets & _ & _ & Hassets_tie & _).
  destruct (resolvers_never_empty OtherPaths.linux)
    as (_ & _ & Hcheck & Hdata_posix & _ & Hassets_posix & _).
  destruct (resolvers_never_empty OtherPaths.windows)
    as (_ & _ & _ & Hdata_win & _ & _ & Hassets_win & _).
  destruct (resolvers_never_empty EmptyDisk.linux) as (_ & _ & _ & _ & _ & _ & _ & Hempty).
  refine (conj (Hdata [WindowsSample.dataPath] eq_refl)
            (conj (Hassets ["C:\Apps\Minecraft\data"] eq_refl) _)).
  split; [|split; [|split; [|split; [|split; [|split]]]]].
  - apply Hcheck. repeat constructor.
  - apply (Hdata_posix
             [ "/home/steve/.local/share/mcpelauncher/games/com.mojang";
               "/home/steve/.var/app/io.mrarm.mcpelauncher/data/mcpelauncher/games/com.mojang" ]).
    + right. right. left. split; reflexivity.
    + repeat constructor.
  - apply Hassets_posix. right. split_and!; reflexivity.
  - apply (Hdata_win [WindowsSample.dataPath]).
    + left. split; [reflexivity|]. exists WindowsSample.localAppData.
      split_and!; [reflexivity| |reflexivity]. vm_compute. discriminate.
    + repeat constructor.
  - apply (Hassets_win eq_refl [("InstallLocation", JStr "C:\Apps\Minecraft")]
             "C:\Apps\Minecraft"); reflexivity.
  - apply (Hassets_tie ["C:\Apps\Minecraft\data"]). left. split; reflexivity.
  - apply Hempty. reflexivity.
Defined.

(** * Further properties of the code *)

(** ** The reader on every text *)

(** X1: for every text the reader returns a document without sections
    whose global mapping has one entry per line of the text, keyed by the
    line's index and valued [undefined]; no record can be read from it. *)
Theorem parseIni_every_text (data : string) :
  parseIni data =
    {| global := map (λ i : nat, (pretty i, None))
                     (seq 0 (length (JS.split JS.LF data)));
       sections := [] |}
  ∧ global (parseIni data) ≠ []
  ∧ (∀ k, js_get (global (parseIni data)) k = None)
  ∧ versionsOf (parseIni data) = [].
Proof.
  assert (parseIni data =
    {| global := map (λ i : nat, (pretty i, None))
                     (seq 0 (length (JS.split JS.LF data)));
       sections := [] |}) as Heq.
  { rewrite parseIni_reads_indices. unfold JS.array_keys. by rewrite map_map. }
  split_and!.
  - done.
  - apply parseIni_global_nonempty.
  - intros k. rewrite Heq. simpl. unfold js_get. clear Heq.
    induction (seq 0 _) as [|i l IH]; [done|].
    cbn [map JSMap.get]. destruct (String.eqb (pretty i) k); [done|apply IH].
  - by rewrite Heq.
Qed.

(** ** The loop body on line text *)

Lemma iniStep_skipped st line : isSkippedLine line = true → iniStep st line = st.
Proof. unfold isSkippedLine, iniStep. by intros ->. Qed.

(** Every line is skipped, a header or a key/value line. *)
Lemma line_cases line :
  isSkippedLine line = true ∨ isHeaderLine line = true ∨ isKeyValueLine line = true.
Proof.
  unfold isSkippedLine, isHeaderLine, isKeyValueLine.
  destruct (String.eqb line "" || JS.startsWith line ";"); [by left|].
  destruct (JS.startsWith line "[" && JS.endsWith line "]"); simpl; auto.
Qed.

Lemma fold_iniStep_without_skipped lines st :
  fold_left iniStep (List.filter (λ l, negb (isSkippedLine l)) lines) st
  = fold_left iniStep lines st.
Proof.
  revert st. induction lines as [|line lines IH]; intros st; simpl; [done|].
  destruct (isSkippedLine line) eqn:Hskip; simpl.
  - by rewrite (iniStep_skipped _ _ Hskip).
  - apply IH.
Qed.

(** X2: blank lines and comment lines, wherever they stand, change nothing
    in the document the loop body builds. *)
Theorem comments_are_ignored (lines : list string) :
  parseLines (List.filter (λ l, negb (isSkippedLine l)) lines) = parseLines lines.
Proof. unfold parseLines, iniRun. by rewrite fold_iniStep_without_skipped. Qed.

Lemma rev_app_append s1 s2 acc :
  String.rev_app (s1 +:+ s2) acc = String.rev_app s2 (String.rev_app s1 acc).
Proof. revert acc. induction s1 as [|c s1 IH]; intros acc; simpl; [done|apply IH]. Qed.

Lemma startsWith_nil s : JS.startsWith s "" = true.
Proof. by destruct s. Qed.

Lemma endsWith_last s c : JS.endsWith (s +:+ String c "") (String c "") = true.
Proof.
  unfold JS.endsWith, String.rev. rewrite rev_app_append.
  cbn [String.rev_app JS.startsWith]. by rewrite Ascii.eqb_refl, startsWith_nil.
Qed.

Lemma substring_prefix s t : String.substring 0 (String.length s) (s +:+ t) = s.
Proof.
  induction s as [|c s IH]; [by destruct t|].
  simpl. f_equal. exact IH.
Qed.

Lemma length_append s t :
  String.length (s +:+ t) = String.length s + String.length t.
Proof. induction s as [|c s IH]; simpl; [done|]. by rewrite IH. Qed.

(** A name in brackets is a header line, and the name is what the loop
    body files the section under. *)
Lemma bracketed_header name :
  isHeaderLine ("[" +:+ name +:+ "]") = true
  ∧ JS.slice ("[" +:+ name +:+ "]") 1 (-1) = name.
Proof.
  split.
  - unfold isHeaderLine.
    assert (JS.endsWith ("[" +:+ name +:+ "]") "]" = true) as ->
      by apply (endsWith_last ("[" +:+ name) "]").
    change ("[" +:+ name +:+ "]") with (String "[" (name +:+ "]")).
    cbn [String.eqb JS.startsWith Ascii.eqb Bool.eqb orb negb andb].
    by rewrite startsWith_nil.
  - unfold JS.slice.
    change ("[" +:+ name +:+ "]") with (String "[" (name +:+ "]")).
    cbn [String.length]. rewrite length_append. cbn [String.length].
    replace (Z.of_nat (S (String.length name + 1)))
      with (Z.of_nat (String.length name) + 2)%Z by lia.
    assert ((1 <? 0)%Z = false) as -> by done.
    assert ((-1 <? 0)%Z = true) as -> by done.
    replace (Z.min 1 (Z.of_nat (String.length name) + 2)) with 1%Z by lia.
    replace (Z.max (Z.of_nat (String.length name) + 2 + -1) 0 - 1)%Z
      with (Z.of_nat (String.length name)) by lia.
    rewrite Nat2Z.id. change (Z.to_nat 1) with 1. cbn [String.substring].
    apply substring_prefix.
Qed.

Lemma split_at_separator sep k rest :
  noSeparator sep k = true →
  JS.split sep (k +:+ String sep rest) = k :: JS.split sep rest.
Proof.
  unfold noSeparator. induction k as [|c k IH]; simpl.
  - intros _. rewrite Ascii.eqb_refl.
    by destruct (JS.split sep rest) eqn:Hs; [apply split_nonempty in Hs|].
  - intros [Hc Hk]%andb_true_iff. rewrite (IH Hk).
    by apply negb_true_iff in Hc as ->.
Qed.

Lemma line_with_separator k rest :
  noSeparator "=" k = true →
  lineKey (k +:+ String "=" rest) = k
  ∧ lineValue (k +:+ String "=" rest) = head (JS.split "=" rest).
Proof.
  intros Hk. unfold lineKey, lineValue, JS.split_limit.
  rewrite (split_at_separator _ _ _ Hk).
  destruct (JS.split "=" rest) as [|piece pieces] eqn:Hs; [by apply split_nonempty in Hs|].
  done.
Qed.

Lemma line_without_separator line :
  noSeparator "=" line = true → lineKey line = line ∧ lineValue line = None.
Proof.
  intros Hline. unfold lineKey, lineValue, JS.split_limit.
  by rewrite (split_without_separator _ _ Hline).
Qed.

(** X3: what one key/value line stores.  Without ["="] the whole line is
    the key and the value is [undefined]; with one ["="] the two sides are
    key and value; after a second ["="] the rest of the line is dropped. *)
Theorem key_value_line_stores (k v w line : string) :
  noSeparator "=" k = true → noSeparator "=" v = true →
  noSeparator "=" line = true →
  (isKeyValueLine line = true → global (parseLines [line]) = [(line, None)])
  ∧ (isKeyValueLine (k +:+ "=" +:+ v) = true →
     global (parseLines [k +:+ "=" +:+ v]) = [(k, Some v)])
  ∧ (isKeyValueLine (k +:+ "=" +:+ v +:+ "=" +:+ w) = true →
     global (parseLines [k +:+ "=" +:+ v +:+ "=" +:+ w]) = [(k, Some v)]).
Proof.
  intros Hk Hv Hline. split_and!; intros Hkv.
  - rewrite parseLines_global by (simpl; by rewrite Hkv).
    cbn [fold_left]. unfold storeLine.
    by destruct (line_without_separator _ Hline) as [-> ->].
  - rewrite parseLines_global by (simpl; by rewrite Hkv).
    cbn [fold_left]. unfold storeLine.
    destruct (line_with_separator k v Hk) as [Hkey Hvalue].
    change (k +:+ "=" +:+ v) with (k +:+ String "=" v).
    rewrite Hkey, Hvalue. unfold noSeparator in Hv.
    by rewrite (split_without_separator _ _ Hv).
  - rewrite parseLines_global by (simpl; by rewrite Hkv).
    cbn [fold_left]. unfold storeLine.
    destruct (line_with_separator k (v +:+ "=" +:+ w) Hk) as [Hkey Hvalue].
    change (k +:+ "=" +:+ v +:+ "=" +:+ w) with (k +:+ String "=" (v +:+ "=" +:+ w)).
    rewrite Hkey, Hvalue.
    change (v +:+ "=" +:+ w) with (v +:+ String "=" w).
    by rewrite (split_at_separator _ _ _ Hv).
Qed.

Lemma key_value_line_stores_witness :
  global (parseLines ["flag"]) = [("flag", None)]
  ∧ global (parseLines ["versionName" +:+ "=" +:+ "1.16.201"])
    = [("versionName", Some "1.16.201")]
  ∧ global (parseLines ["versionName" +:+ "=" +:+ "a" +:+ "=" +:+ "b=c"])
    = [("versionName", Some "a")].
Proof.
  destruct (key_value_line_stores "versionName" "1.16.201" "" "flag" eq_refl eq_refl eq_refl)
    as (Hnone & Hone & _).
  destruct (key_value_line_stores "versionName" "a" "b=c" "flag" eq_refl eq_refl eq_refl)
    as (_ & _ & Htwo).
  split_and!; [apply Hnone|apply Hone|apply Htwo]; reflexivity.
Defined.

(** X4: a header [[name]] followed by a line [k=v] gives a section [name]
    in which [k] is bound to [v], whatever came before the header. *)
Theorem section_round_trip (before : list string) (name k v : string) :
  noSeparator "=" k = true → noSeparator "=" v = true →
  isKeyValueLine (k +:+ "=" +:+ v) = true →
  JSMap.get (sections (parseLines (before ++ ["[" +:+ name +:+ "]"; k +:+ "=" +:+ v]))) name
  = Some [(k, Some v)].
Proof.
  intros Hk Hv Hkv.
  destruct (bracketed_header name) as [Hheader Hname].
  rewrite <-Hname at 2.
  rewrite (parseLines_section before _ [k +:+ "=" +:+ v] Hheader)
    by (simpl; by rewrite Hkv).
  cbn [fold_left]. unfold storeLine.
  destruct (line_with_separator k v Hk) as [Hkey Hvalue].
  change (k +:+ "=" +:+ v) with (k +:+ String "=" v).
  rewrite Hkey, Hvalue. unfold noSeparator in Hv.
  by rewrite (split_without_separator _ _ Hv).
Qed.

Lemma section_round_trip_witness :
  JSMap.get
    (sections (parseLines (["x=0"; "[old]"] ++ ["[" +:+ "1.16" +:+ "]"; "versionCode" +:+ "=" +:+ "5"])))
    "1.16"
  = Some [("versionCode", Some "5")].
Proof.
  exact (section_round_trip ["x=0"; "[old]"] "1.16" "versionCode" "5"
           eq_refl eq_refl eq_refl).
Defined.

(** ** The global mapping and the sections *)

Lemma key_value_not_header line : isKeyValueLine line = true → isHeaderLine line = false.
Proof.
  unfold isKeyValueLine, isHeaderLine.
  intros [_ ->%negb_true_iff]%andb_true_iff. apply andb_false_r.
Qed.

Lemma skipped_not_header line : isSkippedLine line = true → isHeaderLine line = false.
Proof. unfold isSkippedLine, isHeaderLine. by intros ->. Qed.

(** Once a section is current, the first object of the store (the global
    mapping) is out of reach of the loop body. *)
Lemma global_out_of_reach (lines : list string) (st : IniState) :
  (1 ≤ currentSection st)%nat → (1 ≤ length (objs st))%nat →
  objs (fold_left iniStep lines st) !! 0 = objs st !! 0.
Proof.
  revert st. induction lines as [|line lines IH]; intros st Hcur Hlen; [done|].
  cbn [fold_left].
  destruct (line_cases line) as [Hskip|[Hheader|Hkv]].
  - rewrite (iniStep_skipped _ _ Hskip). by apply IH.
  - rewrite (iniStep_header _ _ Hheader). rewrite IH; simpl.
    + by rewrite lookup_app_l by lia.
    + lia.
    + rewrite length_app. lia.
  - rewrite (iniStep_key_value _ _ Hkv). rewrite IH; simpl.
    + apply list_lookup_alter_ne. lia.
    + lia.
    + by rewrite length_alter.
Qed.

Lemma objs_nonempty (lines : list string) (st : IniState) :
  (1 ≤ length (objs st))%nat → (1 ≤ length (objs (fold_left iniStep lines st)))%nat.
Proof.
  revert st. induction lines as [|line lines IH]; intros st Hlen; [done|].
  cbn [fold_left]. apply IH.
  destruct (line_cases line) as [Hskip|[Hheader|Hkv]].
  - by rewrite (iniStep_skipped _ _ Hskip).
  - rewrite (iniStep_header _ _ Hheader). simpl. rewrite length_app. lia.
  - rewrite (iniStep_key_value _ _ Hkv). simpl. by rewrite length_alter.
Qed.

(** X5: from the first section header on, the global mapping is never
    written again: whatever follows a header, the global part of the
    document is the one of the lines before the header. *)
Theorem global_closed_by_header (before : list string) (header : string)
    (rest : list string) :
  isHeaderLine header = true →
  global (parseLines (before ++ header :: rest)) = global (parseLines before).
Proof.
  intros Hheader. unfold parseLines, iniRun, iniFreeze. cbn [global]. f_equal.
  rewrite fold_left_app. cbn [fold_left].
  rewrite (iniStep_header _ _ Hheader).
  pose proof (objs_nonempty before iniInit (le_n 1)) as Hlen.
  rewrite global_out_of_reach; simpl.
  - by rewrite lookup_app_l by lia.
  - lia.
  - rewrite length_app. lia.
Qed.

Lemma global_closed_by_header_witness :
  global (parseLines (["a=1"; "; note"] ++ "[s]" :: ["a=2"; "[t]"; "b=3"]))
  = global (parseLines ["a=1"; "; note"]).
Proof. exact (global_closed_by_header ["a=1"; "; note"] "[s]" ["a=2"; "[t]"; "b=3"] eq_refl). Defined.

Lemma keys_set_addName {V} (m : JSMap.t V) k v :
  JSMap.keys (JSMap.set m k v) = addName (JSMap.keys m) k.
Proof.
  unfold addName. case_bool_decide.
  - by apply keys_set_present.
  - by apply keys_set_absent.
Qed.

Lemma headerNames_cons line lines :
  headerNames (line :: lines) =
    if isHeaderLine line then JS.slice line 1 (-1) :: headerNames lines
    else headerNames lines.
Proof. unfold headerNames. simpl. by destruct (isHeaderLine line). Qed.

Lemma sectionRefs_keys lines st :
  JSMap.keys (sectionRefs (fold_left iniStep lines st))
  = fold_left addName (headerNames lines) (JSMap.keys (sectionRefs st)).
Proof.
  revert st. induction lines as [|line lines IH]; intros st; [done|].
  cbn [fold_left]. rewrite headerNames_cons.
  destruct (line_cases line) as [Hskip|[Hheader|Hkv]].
  - by rewrite (iniStep_skipped _ _ Hskip), (skipped_not_header _ Hskip).
  - rewrite (iniStep_header _ _ Hheader), Hheader, IH. simpl.
    by rewrite keys_set_addName.
  - by rewrite (iniStep_key_value _ _ Hkv), (key_value_not_header _ Hkv), IH.
Qed.

Lemma keys_sections_freeze st :
  JSMap.keys (sections (iniFreeze st)) = JSMap.keys (sectionRefs st).
Proof. unfold iniFreeze, JSMap.keys. simpl. by rewrite map_map. Qed.

Lemma addName_NoDup seen name : NoDup seen → NoDup (addName seen name).
Proof.
  intros Hseen. unfold addName. case_bool_decide; [done|].
  apply list.NoDup_app; split_and!; [done| |apply NoDup_singleton].
  by intros x Hx ->%list_elem_of_singleton.
Qed.

Lemma fold_addName_NoDup names seen : NoDup seen → NoDup (fold_left addName names seen).
Proof.
  revert seen. induction names as [|name names IH]; intros seen Hseen; [done|].
  by apply IH, addName_NoDup.
Qed.

(** X6: the sections of the document are the distinct header names of the
    text, each at the place where it first occurs; no name is listed
    twice. *)
Theorem sections_in_order_of_first_header (lines : list string) :
  JSMap.keys (sections (parseLines lines)) = firstOccurrences (headerNames lines)
  ∧ NoDup (JSMap.keys (sections (parseLines lines))).
Proof.
  assert (JSMap.keys (sections (parseLines lines)) = firstOccurrences (headerNames lines))
    as Hkeys.
  { unfold parseLines, iniRun. by rewrite keys_sections_freeze, sectionRefs_keys. }
  split; [done|]. rewrite Hkeys. apply fold_addName_NoDup. constructor.
Qed.

Example sections_order_sample :
  JSMap.keys (sections (parseLines ["[b]"; "x=1"; "[a]"; "[b]"; "y=2"; "[c]"])) = ["b"; "a"; "c"].
Proof. by vm_compute. Qed.

Lemma headerNames_app first second :
  headerNames (first ++ second) = headerNames first ++ headerNames second.
Proof. unfold headerNames. by rewrite List.filter_app, map_app. Qed.

Lemma headerNames_key_values lines :
  forallb isKeyValueLine lines = true → headerNames lines = [].
Proof.
  induction lines as [|line lines IH]; [done|]. simpl.
  intros [Hline Hlines]%andb_true_iff.
  by rewrite headerNames_cons, (key_value_not_header _ Hline), IH.
Qed.

Lemma addName_again seen name : addName (addName seen name) name = addName seen name.
Proof.
  destruct (decide (name ∈ seen)) as [Hin|Hout].
  - assert (addName seen name = seen) as ->
      by (unfold addName; by rewrite bool_decide_true).
    unfold addName. by rewrite bool_decide_true.
  - assert (addName seen name = seen ++ [name]) as ->
      by (unfold addName; by rewrite bool_decide_false).
    unfold addName. rewrite bool_decide_true; [done|].
    apply elem_of_app. right. left.
Qed.

(** X7: a header that names an existing section starts that section
    afresh.  The entries gathered under the earlier header are gone, the
    section holds what the text from the last header on gives, and the
    section keeps its place among the sections. *)
Theorem reopened_section_is_replaced
    (before : list string) (header : string) (first second : list string) :
  isHeaderLine header = true →
  forallb isKeyValueLine first = true →
  forallb isKeyValueLine second = true →
  JSMap.get (sections (parseLines (before ++ header :: first ++ header :: second)))
            (JS.slice header 1 (-1))
  = JSMap.get (sections (parseLines (header :: second))) (JS.slice header 1 (-1))
  ∧ JSMap.keys (sections (parseLines (before ++ header :: first ++ header :: second)))
    = JSMap.keys (sections (parseLines (before ++ header :: first))).
Proof.
  intros Hheader Hfirst Hsecond. split.
  - replace (before ++ header :: first ++ header :: second)
      with ((before ++ header :: first) ++ header :: second)
      by (by rewrite <-app_assoc).
    rewrite (parseLines_section _ _ _ Hheader Hsecond).
    symmetry. exact (parseLines_section [] _ _ Hheader Hsecond).
  - unfold parseLines, iniRun. rewrite !keys_sections_freeze, !sectionRefs_keys.
    rewrite !headerNames_app, !headerNames_cons, Hheader, !headerNames_app.
    rewrite headerNames_cons, Hheader.
    rewrite (headerNames_key_values _ Hfirst), (headerNames_key_values _ Hsecond).
    rewrite !fold_left_app. cbn [fold_left app].
    apply addName_again.
Qed.

Lemma reopened_section_is_replaced_witness :
  JSMap.get (sections (parseLines (["[a]"; "z=0"] ++ "[s]" :: ["k=1"; "j=2"] ++ "[s]" :: ["m=3"])))
            (JS.slice "[s]" 1 (-1))
  = JSMap.get (sections (parseLines ("[s]" :: ["m=3"]))) (JS.slice "[s]" 1 (-1))
  ∧ JSMap.keys (sections (parseLines (["[a]"; "z=0"] ++ "[s]" :: ["k=1"; "j=2"] ++ "[s]" :: ["m=3"])))
    = JSMap.keys (sections (parseLines (["[a]"; "z=0"] ++ "[s]" :: ["k=1"; "j=2"]))).
Proof.
  exact (reopened_section_is_replaced ["[a]"; "z=0"] "[s]" ["k=1"; "j=2"] ["m=3"]
           eq_refl eq_refl eq_refl).
Defined.

Example reopened_section_sample :
  parseLines ["[a]"; "z=0"; "[s]"; "k=1"; "j=2"; "[a]"; "m=3"]
  = {| global := [];
       sections := [("a", [("m", Some "3")]); ("s", [("k", Some "1"); ("j", Some "2")])] |}.
Proof. by vm_compute. Qed.

(** ** Records of a section *)

(** X8: a section gives a record the selector keeps only if it binds both
    [versionCode] and [versionName] to a value, the name is not empty and
    [parseInt] finds a number at the start of the code; a section that lacks
    either key is discarded. *)
Theorem kept_record_has_both_keys (section : StrMap) :
  validVersion (parseVersionSection section) = true →
  ∃ code name,
    js_get section "versionCode" = Some code
    ∧ js_get section "versionName" = Some name
    ∧ name ≠ ""
    ∧ isNaN (ParseInt.parseInt code) = false
    ∧ parseVersionSection section
      = {| versionCode := ParseInt.parseInt code; versionName := name |}.
Proof.
  assert (ParseInt.parseInt "undefined" = NaN) as Hundefined by reflexivity.
  unfold validVersion, parseVersionSection. cbn [versionCode versionName].
  destruct (js_get section "versionCode") as [code|];
    destruct (js_get section "versionName") as [name|];
    cbn [JS.interp JS.truthy]; rewrite ?Hundefined; cbn [isNaN negb andb];
    try discriminate.
  - intros [Hcode Hname]%andb_true_iff. exists code, name.
    destruct (String.eqb_spec name "") as [->|Hne]; [done|].
    apply negb_true_iff in Hcode. done.
  - rewrite andb_false_r. discriminate.
Qed.

Lemma kept_record_has_both_keys_witness :
  ∃ code name,
    js_get [("versionCode", Some "871"); ("versionName", Some "1.16.201")] "versionCode"
      = Some code
    ∧ js_get [("versionCode", Some "871"); ("versionName", Some "1.16.201")] "versionName"
      = Some name
    ∧ name ≠ ""
    ∧ isNaN (ParseInt.parseInt code) = false
    ∧ parseVersionSection [("versionCode", Some "871"); ("versionName", Some "1.16.201")]
      = {| versionCode := ParseInt.parseInt code; versionName := name |}.
Proof.
  exact (kept_record_has_both_keys
           [("versionCode", Some "871"); ("versionName", Some "1.16.201")] eq_refl).
Defined.

Lemma value_from (ds : list Z) (a : Z) :
  fold_left (λ acc d, acc * 10 + d)%Z ds a
  = (a * 10 ^ Z.of_nat (length ds) + fold_left (λ acc d, acc * 10 + d)%Z ds 0)%Z.
Proof.
  revert a. induction ds as [|d ds IH]; intros a.
  - simpl. lia.
  - cbn [fold_left length]. rewrite (IH (a * 10 + d)%Z), (IH (0 * 10 + d)%Z).
    rewrite Nat2Z.inj_succ, Z.pow_succ_r by lia. lia.
Qed.

Lemma digit_of_isDigit c :
  isDigit c = true → ParseInt.digit 10 c = Some (Z.of_nat (nat_of_ascii c) - 48)%Z.
Proof.
  unfold isDigit, ParseInt.digit.
  intros [Hlo%Nat.leb_le Hhi%Nat.leb_le]%andb_true_iff.
  assert ((48 <=? Z.of_nat (nat_of_ascii c))%Z = true) as -> by (apply Z.leb_le; lia).
  assert ((Z.of_nat (nat_of_ascii c) <=? 57)%Z = true) as -> by (apply Z.leb_le; lia).
  cbn [andb].
  by assert ((Z.of_nat (nat_of_ascii c) - 48 <? 10)%Z = true) as -> by (apply Z.ltb_lt; lia).
Qed.

Lemma digits_length s :
  allChars isDigit s = true → length (ParseInt.digits 10 s) = String.length s.
Proof.
  induction s as [|c s IH]; [done|]. simpl.
  intros [Hc Hs]%andb_true_iff. rewrite (digit_of_isDigit _ Hc). simpl.
  by rewrite IH.
Qed.

Lemma digit_pretty_N_char (x : N) :
  (x < 10)%N → ParseInt.digit 10 (pretty_N_char x) = Some (Z.of_N x).
Proof.
  intros Hx.
  assert (x = 0 ∨ x = 1 ∨ x = 2 ∨ x = 3 ∨ x = 4 ∨ x = 5 ∨ x = 6 ∨ x = 7
          ∨ x = 8 ∨ x = 9)%N as Hcases by lia.
  repeat (destruct Hcases as [->|Hcases]; [reflexivity|]). by subst.
Qed.

(** The digits [pretty] writes in front of [s] are read back as the
    number, shifted past the digits of [s]. *)
Lemma value_pretty_N_go (x : N) (s : string) :
  allChars isDigit s = true →
  ParseInt.value 10 (ParseInt.digits 10 (pretty_N_go x s))
  = (Z.of_N x * 10 ^ Z.of_nat (String.length s)
     + ParseInt.value 10 (ParseInt.digits 10 s))%Z.
Proof.
  revert s. induction (N.lt_wf_0 x) as [x _ IH]; intros s Hs.
  destruct (decide (0 < x)%N) as [Hx|Hx].
  - rewrite pretty_N_go_step by done.
    rewrite IH; [|by apply N.div_lt|simpl; by rewrite isDigit_pretty_N_char, Hs].
    cbn [String.length ParseInt.digits].
    rewrite digit_pretty_N_char by (by apply N.mod_lt).
    unfold ParseInt.value. cbn [fold_left].
    rewrite (value_from _ (0 * 10 + Z.of_N (x `mod` 10))%Z).
    rewrite (digits_length _ Hs).
    rewrite Nat2Z.inj_succ, Z.pow_succ_r by lia.
    pose proof (N.div_mod x 10 ltac:(done)) as Hdiv.
    assert (Z.of_N x = 10 * Z.of_N (x `div` 10) + Z.of_N (x `mod` 10))%Z as -> by lia.
    lia.
  - assert (x = 0%N) as -> by lia. rewrite pretty_N_go_0. simpl. lia.
Qed.

Lemma value_pretty (n : nat) :
  ParseInt.value 10 (ParseInt.digits 10 (pretty n)) = Z.of_nat n.
Proof.
  unfold pretty, pretty_nat, pretty, pretty_N.
  case_decide as Hn.
  - assert (n = 0) as -> by lia. reflexivity.
  - rewrite value_pretty_N_go by done.
    cbn [String.length ParseInt.digits]. unfold ParseInt.value. cbn [fold_left].
    change (Z.of_nat 0) with 0%Z. rewrite Z.pow_0_r. lia.
Qed.

(** Case analysis on a character known to be a decimal digit. *)
Ltac digit_cases c Hc :=
  destruct c as [[] [] [] [] [] [] [] []]; try discriminate Hc.

(** On a non-empty string of decimal digits [parseInt] skips nothing, sees
    no sign and no hexadecimal prefix, and reads all the digits. *)
Lemma parseInt_decimal s :
  isIndexKey s = true →
  ParseInt.parseInt s
  = Num (ParseInt.round_double (ParseInt.value 10 (ParseInt.digits 10 s))).
Proof.
  unfold isIndexKey. intros [Hne Hdigits]%andb_true_iff.
  destruct s as [|c rest]; [discriminate Hne|]. clear Hne. simpl in Hdigits.
  apply andb_true_iff in Hdigits as [Hc Hrest].
  digit_cases c Hc; try reflexivity.
  destruct rest as [|d rest]; [reflexivity|]. simpl in Hrest.
  apply andb_true_iff in Hrest as [Hd _].
  digit_cases d Hd; reflexivity.
Qed.

Lemma round_double_small z : (Z.abs z < 2 ^ 53)%Z → ParseInt.round_double z = z.
Proof.
  intros Hz. unfold ParseInt.round_double.
  by assert ((Z.abs z <? 2 ^ 53)%Z = true) as -> by (by apply Z.ltb_lt).
Qed.

(** X9: a version code written in decimal is read back as that number
    (below [2^53], where doubles are exact), so a section that binds
    [versionCode] to the decimal text of [n] and [versionName] to a
    non-empty name gives exactly the record [(n, name)], and it is kept. *)
Theorem decimal_version_code_round_trip (section : StrMap) (n : nat) (name : string) :
  (Z.of_nat n < 2 ^ 53)%Z →
  js_get section "versionCode" = Some (pretty n) →
  js_get section "versionName" = Some name →
  name ≠ "" →
  parseVersionSection section = {| versionCode := Num (Z.of_nat n); versionName := name |}
  ∧ validVersion (parseVersionSection section) = true.
Proof.
  intros Hn Hcode Hname Hne.
  assert (parseVersionSection section
          = {| versionCode := Num (Z.of_nat n); versionName := name |}) as Hrecord.
  { unfold parseVersionSection. rewrite Hcode, Hname. cbn [JS.interp JS.truthy].
    apply String.eqb_neq in Hne as ->. cbn [negb]. f_equal.
    rewrite (parseInt_decimal _ (isIndexKey_pretty n)), value_pretty.
    rewrite round_double_small by lia. done. }
  split; [done|]. rewrite Hrecord. unfold validVersion. simpl.
  by apply String.eqb_neq in Hne as ->.
Qed.

Lemma decimal_version_code_round_trip_witness :
  parseVersionSection [("versionName", Some "1.16.201"); ("versionCode", Some "871")]
  = {| versionCode := Num (Z.of_nat 871); versionName := "1.16.201" |}
  ∧ validVersion
      (parseVersionSection [("versionName", Some "1.16.201"); ("versionCode", Some "871")])
    = true.
Proof.
  apply (decimal_version_code_round_trip
           [("versionName", Some "1.16.201"); ("versionCode", Some "871")] 871 "1.16.201").
  - vm_compute. reflexivity.
  - vm_compute. reflexivity.
  - reflexivity.
  - vm_compute. discriminate.
Defined.

(** ** The existence filter, once more *)

Lemma filter_existing_idempotent h paths :
  List.filter (existsSync h) (List.filter (existsSync h) paths)
  = List.filter (existsSync h) paths.
Proof.
  induction paths as [|p paths IH]; [done|]. simpl.
  destruct (existsSync h p) eqn:Hp; [|done]. simpl. by rewrite Hp, IH.
Qed.

Lemma checkExists_members h paths existing :
  outcome (checkExists h paths) = Return existing →
  existing = List.filter (existsSync h) paths
  ∧ ∀ p, p ∈ existing ↔ p ∈ paths ∧ existsSync h p = true.
Proof.
  rewrite checkExists_unfold. cbn [outcome snd]. intros Hout.
  assert (existing = List.filter (existsSync h) paths) as ->.
  { destruct (List.filter (existsSync h) paths) as [|q rest]; [done|]. by injection Hout as <-. }
  split; [done|]. intros p. by rewrite !list_elem_of_In, filter_In.
Qed.

(** X10: [checkExists] returns as soon as one candidate exists; what it
    returns are exactly the candidates that exist; and checking its result
    again returns the same list. *)
Theorem checkExists_exact_and_stable (h : Host) (paths : list string) :
  ((∃ p, p ∈ paths ∧ existsSync h p = true) →
     ∃ existing, outcome (checkExists h paths) = Return existing)
  ∧ (∀ existing,
       outcome (checkExists h paths) = Return existing →
       (∀ p, p ∈ existing ↔ p ∈ paths ∧ existsSync h p = true)
       ∧ outcome (checkExists h existing) = Return existing).
Proof.
  rewrite checkExists_unfold. cbn [outcome snd]. split.
  - intros (p & Hin & Hp).
    assert (p ∈ List.filter (existsSync h) paths) as Hfiltered.
    { apply list_elem_of_In, filter_In. by rewrite <-list_elem_of_In. }
    destruct (List.filter (existsSync h) paths) as [|q rest]; [by apply elem_of_nil in Hfiltered|].
    by eexists.
  - intros existing Hout.
    assert (outcome (checkExists h paths) = Return existing) as Hout'
      by (by rewrite checkExists_unfold).
    destruct (checkExists_members _ _ _ Hout') as [Hfilter Hmembers].
    split; [done|].
    rewrite checkExists_unfold. cbn [outcome snd].
    rewrite Hfilter, filter_existing_idempotent, <-Hfilter.
    by destruct (List.filter (existsSync h) paths); [|rewrite Hfilter].
Qed.

Lemma checkExists_exact_and_stable_witness :
  (∃ existing,
      outcome (checkExists WindowsSample.installed
                 ["C:\missing"; WindowsSample.dataPath]) = Return existing)
  ∧ (∀ p, p ∈ [WindowsSample.dataPath] ↔
          p ∈ ["C:\missing"; WindowsSample.dataPath]
          ∧ existsSync WindowsSample.installed p = true)
  ∧ outcome (checkExists WindowsSample.installed [WindowsSample.dataPath])
    = Return [WindowsSample.dataPath].
Proof.
  destruct (checkExists_exact_and_stable WindowsSample.installed
              ["C:\missing"; WindowsSample.dataPath]) as [Hsome Hexact].
  split.
  - apply Hsome. exists WindowsSample.dataPath. split; [right; left|reflexivity].
  - apply (Hexact [WindowsSample.dataPath]). reflexivity.
Defined.

(** ** What the resolvers touch *)

Lemma checkExists_trace h paths :
  trace (checkExists h paths) = map FsExistsSync paths.
Proof. by rewrite checkExists_unfold. Qed.

Lemma probes_only paths : forallb isProbe (map FsExistsSync paths) = true.
Proof. by induction paths. Qed.

Lemma probed_when_returned h paths existing p :
  outcome (checkExists h paths) = Return existing → p ∈ existing →
  FsExistsSync p ∈ trace (checkExists h paths).
Proof.
  intros Hout Hin. rewrite checkExists_trace.
  destruct (checkExists_members h paths existing Hout) as [_ Hmembers].
  destruct (Hmembers p) as [Hp _].
  apply list_elem_of_fmap. exists p. split; [done|]. by apply Hp.
Qed.

Lemma checked_candidates_trace h (candidates : list string) :
  forallb isProbe (trace (checkExists h candidates)) = true
  ∧ length (trace (checkExists h candidates)) = length candidates
  ∧ ∀ existing p,
      outcome (checkExists h candidates) = Return existing → p ∈ existing →
      FsExistsSync p ∈ trace (checkExists h candidates).
Proof.
  split_and!.
  - rewrite checkExists_trace. apply probes_only.
  - by rewrite checkExists_trace, length_map.
  - intros existing p. apply probed_when_returned.
Qed.

(** X11: the data resolver only ever asks whether paths exist.  It makes at
    most two such probes, reads no file and starts no process, and every
    path it returns is one it probed. *)
Theorem getDataLocations_only_probes (h : Host) :
  forallb isProbe (trace (getDataLocations h)) = true
  ∧ (length (trace (getDataLocations h)) ≤ 2)%nat
  ∧ ∀ existing p,
      outcome (getDataLocations h) = Return existing → p ∈ existing →
      FsExistsSync p ∈ trace (getDataLocations h).
Proof.
  assert (∀ candidates, (length candidates ≤ 2)%nat →
            forallb isProbe (trace (checkExists h candidates)) = true
            ∧ (length (trace (checkExists h candidates)) ≤ 2)%nat
            ∧ ∀ existing p,
                outcome (checkExists h candidates) = Return existing → p ∈ existing →
                FsExistsSync p ∈ trace (checkExists h candidates)) as Hchecked.
  { intros candidates Hlen.
    destruct (checked_candidates_trace h candidates) as (Hprobes & Hlength & Hreturned).
    split_and!; [done|lia|done]. }
  unfold getDataLocations. cbv zeta.
  destruct (String.eqb (platform h) "win32").
  { unfold getDataLocations_Windows.
    destruct (JS.truthy (env h "LOCALAPPDATA")).
    - assert (∀ paths, (let* paths := ret paths in checkExists h paths) = checkExists h paths)
        as -> by (intros paths; unfold bind, ret; by destruct (checkExists h paths)).
      apply Hchecked. simpl. lia.
    - split_and!; [done|simpl; lia|done]. }
  destruct (String.eqb (platform h) "darwin");
    [apply Hchecked; unfold getDataLocations_MacOS; simpl; lia|].
  destruct (String.eqb (platform h) "linux");
    [apply Hchecked; unfold getDataLocations_Linux; simpl; lia|].
  destruct (String.eqb (platform h) "android");
    [apply Hchecked; unfold getDataLocations_Android; simpl; lia|].
  split_and!; [done|simpl; lia|done].
Qed.

(** ** The version lookup and the launcher roots *)

(** X12: the version lookup for a launcher root reads the root's
    [versions/versions.ini] and nothing else, and it always throws.  When
    the file cannot be read the message is the "error reading" text
    followed by the lines ["Path: "] and ["Code: "] with the read error's
    path and code; when it can, the message is the "did not contain a valid
    version" text followed by ["Path: "] and the file's path, because the
    reader hands back a document without sections. *)
Theorem version_lookup_always_fails (h : Host) (root : string) :
  getAssetsLocation_mcpelauncher h root =
    ([FsReadFile (path_join h [root; "versions/versions.ini"])],
     Throw (newError
       match readFile h (path_join h [root; "versions/versions.ini"]) with
       | inl error =>
           "Could not determine the location of Bedrock's asset files. There was an error reading the mcpe-launcher versions.ini file."
           +:+ JS.nl +:+ "Path: " +:+ JS.interp (errPath error)
           +:+ JS.nl +:+ "Code: " +:+ JS.interp (errCode error)
       | inr _ =>
           "Could not determine the location of Bedrock's asset files. The mcpe-launcher versions file did not contain a valid version (or the format has been changed)."
           +:+ JS.nl +:+ "Path: " +:+ path_join h [root; "versions/versions.ini"]
       end))
  ∧ (∀ error p code,
       readFile h (path_join h [root; "versions/versions.ini"]) = inl error →
       errPath error = Some p → errCode error = Some code →
       outcome (getAssetsLocation_mcpelauncher h root) =
         Throw (newError
           ("Could not determine the location of Bedrock's asset files. There was an error reading the mcpe-launcher versions.ini file."
            +:+ JS.nl +:+ "Path: " +:+ p +:+ JS.nl +:+ "Code: " +:+ code))).
Proof.
  split.
  - destruct (readFile h (path_join h [root; "versions/versions.ini"]))
      as [error|data] eqn:Hread.
    + by apply getAssetsLocation_mcpelauncher_unreadable.
    + rewrite (getAssetsLocation_mcpelauncher_read _ _ _ Hread).
      unfold selectVersion, versionsOf. cbv zeta. by rewrite parseIni_no_section.
  - intros error p code Hread Hpath Hcode.
    rewrite (getAssetsLocation_mcpelauncher_unreadable _ _ _ Hread).
    unfold Msg.iniUnreadable. by rewrite Hpath, Hcode.
Qed.

Lemma version_lookup_always_fails_witness :
  outcome (getAssetsLocation_mcpelauncher LinuxSample.twoRoots LinuxSample.rootA) =
    Throw (newError
      ("Could not determine the location of Bedrock's asset files. There was an error reading the mcpe-launcher versions.ini file."
       +:+ JS.nl +:+ "Path: " +:+ "/home/steve/.local/share/mcpelauncher/versions/versions.ini"
       +:+ JS.nl +:+ "Code: " +:+ "ENOENT")).
Proof.
  destruct (version_lookup_always_fails LinuxSample.twoRoots LinuxSample.rootA)
    as [_ Hunreadable].
  apply (Hunreadable
           (Sample.enoent "/home/steve/.local/share/mcpelauncher/versions/versions.ini"));
    reflexivity.
Defined.

Lemma lookup_trace h root :
  trace (getAssetsLocation_mcpelauncher h root)
  = [FsReadFile (path_join h [root; "versions/versions.ini"])].
Proof.
  destruct (readFile h (path_join h [root; "versions/versions.ini"])) as [error|data] eqn:Hread.
  - by rewrite (getAssetsLocation_mcpelauncher_unreadable _ _ _ Hread).
  - by rewrite (getAssetsLocation_mcpelauncher_read _ _ _ Hread).
Qed.

(** X13: for a list of launcher roots, every root is probed, in order, and
    then the versions file of every root that exists is read, in order:
    a lookup that fails does not keep the later lookups from starting. *)
Theorem launcher_reads_every_surviving_root (h : Host) (roots : list string) :
  trace (launcherAssets h roots) =
    map FsExistsSync roots
    ++ map (λ root, FsReadFile (path_join h [root; "versions/versions.ini"]))
           (List.filter (existsSync h) roots).
Proof.
  rewrite launcherAssets_unfold. cbn [trace fst]. f_equal.
  induction (List.filter (existsSync h) roots) as [|root existing IH]; [done|].
  cbn [map concat]. by rewrite lookup_trace, IH.
Qed.

Lemma launcher_assets_never_resolve_witness :
  ∃ e, outcome (getAssetsLocations LinuxSample.twoRoots) = Throw e.
Proof.
  exact (launcher_assets_never_resolve LinuxSample.twoRoots (or_intror eq_refl)).
Defined.

(** ** The Windows asset resolver *)

Lemma GetAppxPackage_run h name o :
  outcome (Appx.GetAppxPackage h name) = o →
  Appx.GetAppxPackage h name = ([ExecFile "powershell.exe" (Appx.queryArgs name)], o).
Proof.
  intros Hquery. pose proof (GetAppxPackage_unfold h name) as Hunfold.
  destruct (Appx.GetAppxPackage h name) as [t o'].
  cbn [outcome snd] in Hquery. subst o'. by injection Hunfold as -> _.
Qed.

Lemma getAssetsLocations_Windows_unlocated h packageData :
  outcome (Appx.GetAppxPackage h "Microsoft.MinecraftUWP") = Return packageData →
  reportedLocation packageData = None →
  ∃ e,
    getAssetsLocations_Windows h =
      ([ExecFile "powershell.exe" (Appx.queryArgs "Microsoft.MinecraftUWP")], Throw e)
    ∧ (e = nullPropertyError h "InstallLocation" ∨ ∃ value, e = joinArgumentError h value).
Proof.
  intros Hquery Hnone.
  unfold getAssetsLocations_Windows. rewrite (GetAppxPackage_run _ _ _ Hquery).
  unfold reportedLocation in Hnone.
  destruct packageData as [|b|lexeme|text|items|props]; unfold installLocationOf;
    eff_simpl; try (eexists; split; [reflexivity|]; (by left) || (right; by eexists)).
  destruct (JSMap.get props "InstallLocation") as [[| | |location| |]|];
    try discriminate Hnone;
    (eexists; split; [reflexivity|]; right; by eexists).
Qed.

Lemma reportedLocation_Some packageData location :
  reportedLocation packageData = Some location →
  ∃ props, packageData = JObj props
           ∧ JSMap.get props "InstallLocation" = Some (JStr location).
Proof.
  unfold reportedLocation. destruct packageData as [| | | | |props]; try done.
  destruct (JSMap.get props "InstallLocation") as [[| | |l| |]|] eqn:Hget; try done.
  intros [= ->]. by exists props.
Qed.

(** X14: when the package query returns data that reports no install
    location (not an object, or an object whose [InstallLocation] is
    missing or not a string), the resolver throws the runtime's own
    [TypeError], not an error with the resolver's context, and it makes no
    existence probe. *)
Theorem windows_package_without_location (h : Host) (packageData : JSValue) :
  outcome (Appx.GetAppxPackage h "Microsoft.MinecraftUWP") = Return packageData →
  reportedLocation packageData = None →
  ∃ e,
    getAssetsLocations_Windows h =
      ([ExecFile "powershell.exe" (Appx.queryArgs "Microsoft.MinecraftUWP")], Throw e)
    ∧ (e = nullPropertyError h "InstallLocation" ∨ ∃ value, e = joinArgumentError h value)
    ∧ (platform h = "win32" →
       getAssetsLocations h =
         ([ExecFile "powershell.exe" (Appx.queryArgs "Microsoft.MinecraftUWP")], Throw e)).
Proof.
  intros Hquery Hnone.
  destruct (getAssetsLocations_Windows_unlocated _ _ Hquery Hnone) as (e & Hwin & He).
  exists e. split_and!; [done..|].
  intros Hos. unfold getAssetsLocations. cbv zeta. by rewrite Hos, Hwin.
Qed.

Lemma windows_package_without_location_witness :
  ∃ e,
    getAssetsLocations_Windows WindowsSample.emptyObject =
      ([ExecFile "powershell.exe" (Appx.queryArgs "Microsoft.MinecraftUWP")], Throw e)
    ∧ (e = nullPropertyError WindowsSample.emptyObject "InstallLocation"
       ∨ ∃ value, e = joinArgumentError WindowsSample.emptyObject value)
    ∧ (platform WindowsSample.emptyObject = "win32" →
       getAssetsLocations WindowsSample.emptyObject =
         ([ExecFile "powershell.exe" (Appx.queryArgs "Microsoft.MinecraftUWP")], Throw e)).
Proof.
  exact (windows_package_without_location WindowsSample.emptyObject (JObj [])
           eq_refl eq_refl).
Defined.

(** X15: on ["win32"] the asset resolver starts exactly one process, the
    package query, before anything else; after it come at most one
    existence probe and no file read. *)
Theorem windows_assets_trace (h : Host) :
  platform h = "win32" →
  ∃ probes,
    trace (getAssetsLocations h) =
      ExecFile "powershell.exe" (Appx.queryArgs "Microsoft.MinecraftUWP") :: probes
    ∧ forallb isProbe probes = true
    ∧ (length probes ≤ 1)%nat.
Proof.
  intros Hos. unfold getAssetsLocations. cbv zeta. rewrite Hos.
  cbn [String.eqb Ascii.eqb Bool.eqb].
  destruct (outcome (Appx.GetAppxPackage h "Microsoft.MinecraftUWP"))
    as [packageData|e] eqn:Hquery.
  - destruct (reportedLocation packageData) as [location|] eqn:Hlocation.
    + apply reportedLocation_Some in Hlocation as (props & -> & Hget).
      rewrite (getAssetsLocations_Windows_located _ _ _ Hquery Hget).
      exists [FsExistsSync (path_join h [location; "data"])].
      split_and!; [|done|simpl; lia].
      unfold bind. rewrite checkExists_unfold. done.
    + destruct (getAssetsLocations_Windows_unlocated _ _ Hquery Hlocation)
        as (e & -> & _).
      exists []. split_and!; [done|done|simpl; lia].
  - rewrite (getAssetsLocations_Windows_rejected _ _ Hquery).
    exists []. split_and!; [done|done|simpl; lia].
Qed.

Lemma windows_assets_trace_witness :
  ∃ probes,
    trace (getAssetsLocations WindowsSample.installed) =
      ExecFile "powershell.exe" (Appx.queryArgs "Microsoft.MinecraftUWP") :: probes
    ∧ forallb isProbe probes = true
    ∧ (length probes ≤ 1)%nat.
Proof. exact (windows_assets_trace WindowsSample.installed eq_refl). Defined.

Lemma getDataLocations_only_probes_witness :
  FsExistsSync WindowsSample.dataPath ∈ trace (getDataLocations WindowsSample.installed).
Proof.
  destruct (getDataLocations_only_probes WindowsSample.installed) as (_ & _ & Hreturned).
  apply (Hreturned [WindowsSample.dataPath] WindowsSample.dataPath).
  - reflexivity.
  - left.
Defined.

(** ** Duplicate keys in any section of any text *)

Lemma skipped_not_key_value line : isSkippedLine line = true → isKeyValueLine line = false.
Proof. unfold isSkippedLine, isKeyValueLine. by intros ->. Qed.

Lemma header_not_key_value line : isHeaderLine line = true → isKeyValueLine line = false.
Proof.
  intros Hheader. destruct (isKeyValueLine line) eqn:Hkv; [|done].
  by rewrite (key_value_not_header _ Hkv) in Hheader.
Qed.

Lemma header_not_skipped line : isHeaderLine line = true → isSkippedLine line = false.
Proof.
  intros Hheader. destruct (isSkippedLine line) eqn:Hskip; [|done].
  by rewrite (skipped_not_header _ Hskip) in Hheader.
Qed.

(** Between two headers only the key/value lines count. *)
Lemma fold_iniStep_body body st :
  forallb (λ l, negb (isHeaderLine l)) body = true →
  fold_left iniStep body st = fold_left iniStep (List.filter isKeyValueLine body) st.
Proof.
  revert st. induction body as [|line body IH]; intros st Hbody; [done|].
  simpl in Hbody. apply andb_true_iff in Hbody as [Hline%negb_true_iff Hbody].
  cbn [fold_left List.filter].
  destruct (line_cases line) as [Hskip|[Hheader|Hkv]].
  - rewrite (iniStep_skipped _ _ Hskip), (skipped_not_key_value _ Hskip). by apply IH.
  - congruence.
  - rewrite Hkv. cbn [fold_left]. by apply IH.
Qed.

Lemma filter_key_values body :
  forallb isKeyValueLine (List.filter isKeyValueLine body) = true.
Proof.
  induction body as [|line body IH]; [done|]. simpl.
  destruct (isKeyValueLine line) eqn:Hkv; [|done]. simpl. by rewrite Hkv.
Qed.

(** The state after a header and the lines up to the next header: one new
    object, filled from the key/value lines, is current and is filed under
    the header's name. *)
Lemma fold_iniStep_section header body st :
  isHeaderLine header = true →
  forallb (λ l, negb (isHeaderLine l)) body = true →
  fold_left iniStep (header :: body) st =
    {| objs := objs st ++ [fold_left storeLine (List.filter isKeyValueLine body) JSMap.empty];
       sectionRefs := JSMap.set (sectionRefs st) (JS.slice header 1 (-1)) (length (objs st));
       currentSection := length (objs st) |}.
Proof.
  intros Hheader Hbody. cbn [fold_left].
  rewrite (iniStep_header _ _ Hheader), (fold_iniStep_body _ _ Hbody).
  rewrite (iniRun_key_values _ _ (filter_key_values body)). simpl. f_equal.
  rewrite <-(Nat.add_0_r (length (objs st))) at 1. by rewrite alter_app_r.
Qed.

(** A section that is not current, and whose name no later header takes,
    is out of reach of the loop body. *)
Lemma section_out_of_reach rest st name r (m : StrMap) :
  JSMap.get (sectionRefs st) name = Some r →
  objs st !! r = Some m →
  currentSection st ≠ r ∨ opensWithHeader rest = true →
  forallb (λ l, negb (isHeaderOf name l)) rest = true →
  JSMap.get (sectionRefs (fold_left iniStep rest st)) name = Some r
  ∧ objs (fold_left iniStep rest st) !! r = Some m.
Proof.
  revert st. induction rest as [|line rest IH]; intros st Hrefs Hobj Hcur Hrest; [done|].
  simpl in Hrest. apply andb_true_iff in Hrest as [Hline%negb_true_iff Hrest].
  cbn [fold_left].
  pose proof (lookup_lt_Some _ _ _ Hobj) as Hlt.
  destruct (line_cases line) as [Hskip|[Hheader|Hkv]].
  - rewrite (iniStep_skipped _ _ Hskip). apply IH; [done|done| |done].
    left. destruct Hcur as [Hcur|Hopens]; [done|].
    simpl in Hopens. by rewrite (skipped_not_header _ Hskip) in Hopens.
  - rewrite (iniStep_header _ _ Hheader).
    unfold isHeaderOf in Hline. rewrite Hheader in Hline. simpl in Hline.
    apply String.eqb_neq in Hline.
    apply IH; simpl; [| | |done].
    + by rewrite get_set_other.
    + by rewrite lookup_app_l.
    + left. lia.
  - rewrite (iniStep_key_value _ _ Hkv).
    assert (currentSection st ≠ r) as Hne.
    { destruct Hcur as [Hcur|Hopens]; [done|].
      simpl in Hopens. by rewrite (key_value_not_header _ Hkv) in Hopens. }
    apply IH; simpl; [done| |by left|done].
    by rewrite list_lookup_alter_ne.
Qed.

(** From the first header on the global mapping stays as it is. *)
Lemma global_kept rest st :
  opensWithHeader rest = true → (1 ≤ length (objs st))%nat →
  objs (fold_left iniStep rest st) !! 0 = objs st !! 0.
Proof.
  destruct rest as [|header rest]; [done|]. simpl. intros Hheader Hlen.
  rewrite (iniStep_header _ _ Hheader), global_out_of_reach; simpl.
  - by rewrite lookup_app_l by lia.
  - lia.
  - rewrite length_app. lia.
Qed.

Lemma lastValue_of_last_carrier earlier line later start :
  isKeyValueLine line = true →
  forallb (λ l, negb (carriesKey (lineKey line) l)) later = true →
  lastValue (lineKey line)
    (List.filter isKeyValueLine (earlier ++ line :: later)) start
  = Some (lineValue line).
Proof.
  intros Hkv Hlater. rewrite List.filter_app. cbn [List.filter]. rewrite Hkv.
  apply lastValue_last; [done|].
  clear -Hlater. induction later as [|l later IH]; [done|].
  simpl in Hlater. apply andb_true_iff in Hlater as [Hl Hlater].
  cbn [List.filter]. destruct (isKeyValueLine l) eqn:Hkv; [|by apply IH].
  simpl. rewrite (IH Hlater), andb_true_r.
  unfold carriesKey in Hl. by rewrite Hkv in Hl.
Qed.

(** C7 (as amended): in the document the loop body builds from line text,
    take a section header, the lines up to the next header, and a text
    after them in which no header has the same name.  A key carried by
    several key/value lines of that stretch is stored once in the section,
    with the value of its last occurrence; blank lines, comments and other
    sections around it change nothing.  The same holds for the global part
    and the lines before the first header. *)
Theorem duplicate_key_last_wins
    (before : list string) (header : string)
    (earlier : list string) (line : string) (later rest : list string) :
  isHeaderLine header = true →
  forallb (λ l, negb (isHeaderLine l)) (earlier ++ line :: later) = true →
  isKeyValueLine line = true →
  forallb (λ l, negb (carriesKey (lineKey line) l)) later = true →
  opensWithHeader rest = true →
  forallb (λ l, negb (isHeaderOf (JS.slice header 1 (-1)) l)) rest = true →
  (∃ m, JSMap.get
          (sections (parseLines (before ++ header :: (earlier ++ line :: later) ++ rest)))
          (JS.slice header 1 (-1)) = Some m
        ∧ NoDup (JSMap.keys m)
        ∧ JSMap.get m (lineKey line) = Some (lineValue line))
  ∧ NoDup (JSMap.keys (global (parseLines ((earlier ++ line :: later) ++ rest))))
  ∧ JSMap.get (global (parseLines ((earlier ++ line :: later) ++ rest))) (lineKey line)
    = Some (lineValue line).
Proof.
  intros Hheader Hbody Hkv Hlater Hopens Hrest.
  set (body := earlier ++ line :: later) in *.
  set (m := fold_left storeLine (List.filter isKeyValueLine body) JSMap.empty).
  assert (NoDup (JSMap.keys m)) as Hnodup by (apply keys_fold_storeLine; constructor).
  assert (JSMap.get m (lineKey line) = Some (lineValue line)) as Hlast.
  { unfold m. rewrite get_fold_storeLine. by apply lastValue_of_last_carrier. }
  split; [exists m; split_and!; [|done..]|].
  - unfold parseLines, iniRun.
    rewrite fold_left_app.
    change (header :: body ++ rest) with ((header :: body) ++ rest).
    rewrite fold_left_app, (fold_iniStep_section _ _ _ Hheader Hbody). fold m.
    set (st := fold_left iniStep before iniInit).
    destruct (section_out_of_reach rest
                {| objs := objs st ++ [m];
                   sectionRefs := JSMap.set (sectionRefs st) (JS.slice header 1 (-1))
                                    (length (objs st));
                   currentSection := length (objs st) |}
                (JS.slice header 1 (-1)) (length (objs st)) m) as [Hrefs Hobj]; simpl.
    + apply get_set_same.
    + by rewrite lookup_app_r, Nat.sub_diag by lia.
    + by right.
    + done.
    + unfold iniFreeze. cbn [sections].
      rewrite (get_deref _ (λ r, default JSMap.empty (_ !! r))), Hrefs. simpl.
      by rewrite Hobj.
  - assert (global (parseLines (body ++ rest)) = m) as ->; [|done].
    unfold parseLines, iniRun, iniFreeze. cbn [global].
    rewrite fold_left_app, (fold_iniStep_body _ _ Hbody).
    rewrite (iniRun_key_values _ _ (filter_key_values body)).
    rewrite global_kept; [done|done|simpl; lia].
Qed.

Lemma duplicate_key_last_wins_witness :
  (∃ m, JSMap.get
          (sections (parseLines (["x=0"; "[s]"; "k=0"; "[t]"]
                                 ++ "[s]" :: (["k=1"; ""; "; note"] ++ "k=2" :: ["j=3"; ""])
                                 ++ ["[u]"; "k=9"; "[t]"; ""])))
          (JS.slice "[s]" 1 (-1)) = Some m
        ∧ NoDup (JSMap.keys m)
        ∧ JSMap.get m (lineKey "k=2") = Some (lineValue "k=2"))
  ∧ NoDup (JSMap.keys (global (parseLines ((["k=1"; ""; "; note"] ++ "k=2" :: ["j=3"; ""])
                                             ++ ["[u]"; "k=9"; "[t]"; ""]))))
  ∧ JSMap.get (global (parseLines ((["k=1"; ""; "; note"] ++ "k=2" :: ["j=3"; ""])
                                     ++ ["[u]"; "k=9"; "[t]"; ""])))
              (lineKey "k=2")
    = Some (lineValue "k=2").
Proof.
  exact (duplicate_key_last_wins ["x=0"; "[s]"; "k=0"; "[t]"] "[s]"
           ["k=1"; ""; "; note"] "k=2" ["j=3"; ""] ["[u]"; "k=9"; "[t]"; ""]
           eq_refl eq_refl eq_refl eq_refl eq_refl eq_refl).
Defined.

(** The text of the witness, and a section reopened by a later header. *)
Example duplicate_key_samples :
  parseLines ["x=0"; "[s]"; "k=0"; "[t]"; "[s]"; "k=1"; ""; "; note"; "k=2"; "j=3"; "";
              "[u]"; "k=9"; "[t]"; ""]
  = {| global := [("x", Some "0")];
       sections := [ ("s", [("k", Some "2"); ("j", Some "3")]); ("t", []);
                     ("u", [("k", Some "9")]) ] |}
  ∧ parseLines ["[s]"; "k=1"; "k=2"; "[s]"] = {| global := []; sections := [("s", [])] |}.
Proof. by vm_compute. Qed.
